(** * puppeteer_recorder: the interaction-capture engine of [src/recorder.ts]

    A shallow embedding of the recorder: JavaScript strings as lists of
    UTF-16 code units, the Chrome DevTools session as an oracle that answers
    protocol commands, and the recorder's closures as computations in a
    state-and-exception monad over the recording session. *)

From Stdlib Require Import List NArith ZArith String Ascii Bool Lia.
From Stdlib Require Import DecimalString DecimalN FinFun.
Import ListNotations.

(* ================================================================== *)
(** ** JavaScript strings *)
(* ================================================================== *)

Module JS.

(** A JavaScript string is a sequence of 16-bit code units. *)
Definition jsstring := list N.

(** A source literal whose characters are all ASCII. *)
Definition lit (s : string) : jsstring :=
  map N_of_ascii (list_ascii_of_string s).

Fixpoint eqb (a b : jsstring) : bool :=
  match a, b with
  | [], [] => true
  | c :: a', d :: b' => (c =? d)%N && eqb a' b'
  | _, _ => false
  end.

(** [s.startsWith(p)] *)
Fixpoint startsWith (s p : jsstring) : bool :=
  match p, s with
  | [], _ => true
  | c :: p', d :: s' => (c =? d)%N && startsWith s' p'
  | _ :: _, [] => false
  end.

(** [s.includes(sub)] *)
Fixpoint includes (s sub : jsstring) : bool :=
  startsWith s sub ||
  match s with
  | [] => false
  | _ :: s' => includes s' sub
  end.

(** The exceptions the recorder can run into. *)
Inductive JsError := TypeError | RangeError | ProtocolError.

(** [s.repeat(count)]: a negative count throws a RangeError. *)
Definition repeat (s : jsstring) (count : Z) : JsError + jsstring :=
  if (count <? 0)%Z then inl RangeError
  else inr (List.concat (List.repeat s (Z.to_nat count))).

(** Decimal rendering of a non-negative integer, as in a template literal. *)
Definition ofN (n : N) : jsstring :=
  lit (NilEmpty.string_of_uint (N.to_uint n)).

(** *** JSON.stringify on a string (QuoteJSONString) *)

Definition hexDigit (d : N) : N :=
  if (d <? 10)%N then (48 + d)%N else (87 + d)%N.

(** [\uXXXX] with lowercase hexadecimal digits. *)
Definition unicodeEscape (c : N) : jsstring :=
  [92; 117; hexDigit (c / 4096); hexDigit ((c / 256) mod 16);
   hexDigit ((c / 16) mod 16); hexDigit (c mod 16)]%N.

Definition isLeadingSurrogate (c : N) : bool :=
  (55296 <=? c)%N && (c <=? 56319)%N.

Definition isTrailingSurrogate (c : N) : bool :=
  (56320 <=? c)%N && (c <=? 57343)%N.

(** One code unit that is not a surrogate. *)
Definition quoteUnit (c : N) : jsstring :=
  if (c =? 8)%N then [92; 98]%N            (* \b *)
  else if (c =? 9)%N then [92; 116]%N      (* \t *)
  else if (c =? 10)%N then [92; 110]%N     (* \n *)
  else if (c =? 12)%N then [92; 102]%N     (* \f *)
  else if (c =? 13)%N then [92; 114]%N     (* \r *)
  else if (c =? 34)%N then [92; 34]%N      (* escaped quote *)
  else if (c =? 92)%N then [92; 92]%N      (* escaped backslash *)
  else if (c <? 32)%N then unicodeEscape c
  else [c].

(** The characters between the quotes: a surrogate pair is copied, a lone
    surrogate is written as a [\u] escape. *)
Fixpoint quoteChars (s : jsstring) : jsstring :=
  match s with
  | [] => []
  | c :: rest =>
      if isLeadingSurrogate c then
        match rest with
        | d :: rest' =>
            if isTrailingSurrogate d then c :: d :: quoteChars rest'
            else unicodeEscape c ++ quoteChars rest
        | [] => unicodeEscape c
        end
      else if isTrailingSurrogate c then unicodeEscape c ++ quoteChars rest
      else quoteUnit c ++ quoteChars rest
  end.

Definition quoteJSONString (s : jsstring) : jsstring :=
  34%N :: quoteChars s ++ [34%N].

(** *** Reading a string literal of the generated script

    The StringLiteral production of the language the emitted script is
    written in: a quote, then characters up to the matching quote, with
    backslash escapes. Code-point escapes [\u{...}], [\0] and legacy octal
    escapes are refused; nothing the recorder writes uses them. *)

Definition hexVal (c : N) : option N :=
  if (48 <=? c)%N && (c <=? 57)%N then Some (c - 48)%N
  else if (97 <=? c)%N && (c <=? 102)%N then Some (c - 87)%N
  else if (65 <=? c)%N && (c <=? 70)%N then Some (c - 55)%N
  else None.

Definition isLineTerminator (c : N) : bool :=
  (c =? 10)%N || (c =? 13)%N || (c =? 8232)%N || (c =? 8233)%N.

(** The value of [\e] for a one-character escape [e]; [None] where the
    escape is refused. *)
Definition singleEscape (e : N) : option N :=
  if (e =? 98)%N then Some 8%N             (* b *)
  else if (e =? 116)%N then Some 9%N       (* t *)
  else if (e =? 110)%N then Some 10%N      (* n *)
  else if (e =? 118)%N then Some 11%N      (* v *)
  else if (e =? 102)%N then Some 12%N      (* f *)
  else if (e =? 114)%N then Some 13%N      (* r *)
  else if (48 <=? e)%N && (e <=? 57)%N then None   (* \0 and octal forms *)
  else Some e.

Definition consChar (c : N) (r : option (jsstring * jsstring))
  : option (jsstring * jsstring) :=
  match r with
  | Some (v, rest) => Some (c :: v, rest)
  | None => None
  end.

(** [literalChars q src]: the string value of the characters up to the
    closing quote [q], and the source text after that quote. *)
Fixpoint literalChars (q : N) (src : jsstring) : option (jsstring * jsstring) :=
  match src with
  | [] => None
  | c :: rest =>
      if (c =? q)%N then Some ([], rest)
      else if (c =? 92)%N then
        match rest with
        | [] => None
        | e :: rest1 =>
            if (e =? 117)%N then
              match rest1 with
              | h1 :: h2 :: h3 :: h4 :: rest2 =>
                  match hexVal h1, hexVal h2, hexVal h3, hexVal h4 with
                  | Some a, Some b, Some c', Some d =>
                      consChar (((a * 16 + b) * 16 + c') * 16 + d)%N
                               (literalChars q rest2)
                  | _, _, _, _ => None
                  end
              | _ => None
              end
            else if (e =? 120)%N then
              match rest1 with
              | h1 :: h2 :: rest2 =>
                  match hexVal h1, hexVal h2 with
                  | Some a, Some b =>
                      consChar (a * 16 + b)%N (literalChars q rest2)
                  | _, _ => None
                  end
              | _ => None
              end
            else if isLineTerminator e then literalChars q rest1
            else
              match singleEscape e with
              | Some v => consChar v (literalChars q rest1)
              | None => None
              end
        end
      else if (c =? 10)%N || (c =? 13)%N then None
      else consChar c (literalChars q rest)
  end.

(** A string literal at the head of [src]: its value and the rest. *)
Definition stringLiteral (src : jsstring) : option (jsstring * jsstring) :=
  match src with
  | q :: rest =>
      if (q =? 34)%N || (q =? 39)%N then literalChars q rest else None
  | [] => None
  end.

End JS.

Import JS.

(* ================================================================== *)
(** ** The DevTools protocol as the recorder sees it *)
(* ================================================================== *)

(** A value carried by a protocol response. The helpers the recorder calls
    answer with strings, booleans, [null] or nothing at all. *)
Inductive JsValue :=
| VUndefined
| VNull
| VBool (b : bool)
| VStr (s : jsstring).

(** ToBoolean, as [if (v)] and [a && b] apply it. *)
Definition truthy (v : JsValue) : bool :=
  match v with
  | VUndefined | VNull => false
  | VBool b => b
  | VStr [] => false
  | VStr (_ :: _) => true
  end.

Definition nonEmpty (s : jsstring) : bool :=
  match s with [] => false | _ :: _ => true end.

(** Runtime.RemoteObject *)
Record RemoteObject := {
  ro_className : option jsstring;
  ro_objectId : option jsstring;
  ro_value : JsValue
}.

(** Runtime.PropertyDescriptor; [value] is absent on accessor properties. *)
Record PropertyDescriptor := {
  pd_name : jsstring;
  pd_value : option RemoteObject
}.

(** Accessibility.AXNode, with [name] and [role] standing for [name.value]
    and [role.value]; [None] where the node carries no such property. *)
Record AXNode := {
  backendDOMNodeId : option N;
  ax_name : option jsstring;
  ax_role : option jsstring
}.

(** The parameters of Accessibility.queryAXTree. *)
Record AXQuery := {
  q_objectId : option jsstring;
  q_backendNodeId : option N;
  q_accessibleName : option jsstring;
  q_role : option jsstring
}.

(** The functions shipped to the page through Runtime.callFunctionOn: the
    three of [./helpers] and the inline [function() { return this.value }].
    They run in the page; what they answer there is part of the [World]. *)
Inductive PageFunction :=
| helpers_isSubmitButton
| helpers_getParent
| helpers_cssPath
| getThisValue.

(** Every request the recorder makes of the browser, puppeteer or the
    process, with its parameters. *)
Inductive Command :=
| Puppeteer_connect (browserWSEndpoint : jsstring)
| Puppeteer_launch
| Page_goto (url : jsstring)
| Browser_close
| Process_exit
| Fs_writeFile (fileName data : jsstring)
| Debugger_enable
| DOMDebugger_setEventListenerBreakpoint (eventName : jsstring)
| DOM_getDocument (depth : Z) (pierce : bool)
| DOM_getOuterHTML (nodeId : N)
| Accessibility_queryAXTree (q : AXQuery)
| Runtime_callFunctionOn (fn : PageFunction) (objectId : option jsstring)
| Runtime_getProperties (objectId : option jsstring)
| Runtime_evaluate (expression : jsstring)
| Debugger_resume (terminateOnResume : bool)
| Debugger_setSkipAllPauses (skip : bool).

(** What the outside answers while one handler runs: the paused page behind
    the session, and the clock. *)
Record World := {
  root_nodeId : N;
  root_backendNodeId : N;
  queryAXTree : AXQuery -> list AXNode;
  callFunctionOn : PageFunction -> jsstring -> RemoteObject;
  getProperties : jsstring -> list PropertyDescriptor;
  scrollHeight : option Z;
  outerHTML : jsstring;
  dateNow : N
}.

(* ================================================================== *)
(** ** The recording session and its monad *)
(* ================================================================== *)

(** What [output.push] is given: a chunk of text, or [null]. *)
Inductive Chunk :=
| Data (s : jsstring)
| EndOfStream.

(** A callback waiting in [setTimeout], with the height it closed over. *)
Record Timer := {
  delay : N;
  prevScrollHeight : option Z
}.

(** The variables the closures of the default export share, the effects
    they have had so far (oldest first), and the files in the working
    directory. *)
Record Session := {
  identation : Z;
  output : list Chunk;
  console : list jsstring;
  sent : list Command;
  scrollTimeout : bool;
  timers : list Timer;
  files : list jsstring;
  exitPending : bool;
  exited : bool
}.

Definition set_identation (z : Z) (st : Session) : Session :=
  {| identation := z; output := output st; console := console st;
     sent := sent st; scrollTimeout := scrollTimeout st; timers := timers st;
     files := files st; exitPending := exitPending st; exited := exited st |}.

Definition set_output (o : list Chunk) (st : Session) : Session :=
  {| identation := identation st; output := o; console := console st;
     sent := sent st; scrollTimeout := scrollTimeout st; timers := timers st;
     files := files st; exitPending := exitPending st; exited := exited st |}.

Definition set_console (c : list jsstring) (st : Session) : Session :=
  {| identation := identation st; output := output st; console := c;
     sent := sent st; scrollTimeout := scrollTimeout st; timers := timers st;
     files := files st; exitPending := exitPending st; exited := exited st |}.

Definition set_sent (c : list Command) (st : Session) : Session :=
  {| identation := identation st; output := output st; console := console st;
     sent := c; scrollTimeout := scrollTimeout st; timers := timers st;
     files := files st; exitPending := exitPending st; exited := exited st |}.

Definition set_scroll (b : bool) (t : list Timer) (st : Session) : Session :=
  {| identation := identation st; output := output st; console := console st;
     sent := sent st; scrollTimeout := b; timers := t;
     files := files st; exitPending := exitPending st; exited := exited st |}.

Definition set_files (f : list jsstring) (st : Session) : Session :=
  {| identation := identation st; output := output st; console := console st;
     sent := sent st; scrollTimeout := scrollTimeout st; timers := timers st;
     files := f; exitPending := exitPending st; exited := exited st |}.

Definition set_exit (pending done : bool) (st : Session) : Session :=
  {| identation := identation st; output := output st; console := console st;
     sent := sent st; scrollTimeout := scrollTimeout st; timers := timers st;
     files := files st; exitPending := pending; exited := done |}.

(** How a call ends: it returns, it throws, or it is still looping when the
    fuel of the model is spent. *)
Inductive Outcome (A : Type) :=
| Returned (a : A)
| Thrown (e : JsError)
| Diverged.

Arguments Returned {A} a.
Arguments Thrown {A} e.
Arguments Diverged {A}.

Definition M (A : Type) : Type := Session -> Outcome A * Session.

Definition ret {A} (a : A) : M A := fun st => (Returned a, st).

Definition bind {A B} (m : M A) (k : A -> M B) : M B :=
  fun st =>
    match m st with
    | (Returned a, st') => k a st'
    | (Thrown e, st') => (Thrown e, st')
    | (Diverged, st') => (Diverged, st')
    end.

Definition throw {A} (e : JsError) : M A := fun st => (Thrown e, st).

Definition diverge {A} : M A := fun st => (Diverged, st).

Definition modify (f : Session -> Session) : M unit :=
  fun st => (Returned tt, f st).

Definition gets {A} (f : Session -> A) : M A :=
  fun st => (Returned (f st), st).

Declare Scope rec_scope.
Delimit Scope rec_scope with rec.
Notation "x <- m ;; k" := (bind m (fun x => k))
  (at level 61, m at next level, right associativity) : rec_scope.
Notation "m ;; k" := (bind m (fun _ => k))
  (at level 61, right associativity) : rec_scope.
Local Open Scope rec_scope.

(** A property read off a value that may be [undefined]. *)
Definition orThrow {A} (e : JsError) (o : option A) : M A :=
  match o with
  | Some a => ret a
  | None => throw e
  end.

(** [client.send(method, params)]: the command goes out. *)
Definition send (c : Command) : M unit :=
  modify (fun st => set_sent (sent st ++ [c]) st).

(** [output.push(chunk)] *)
Definition push (c : Chunk) : M unit :=
  modify (fun st => set_output (output st ++ [c]) st).

(** [console.log(msg)] *)
Definition console_log (msg : jsstring) : M unit :=
  modify (fun st => set_console (console st ++ [msg]) st).

(* ================================================================== *)
(** ** The recorder *)
(* ================================================================== *)

Record RecorderOptions := {
  wsEndpoint : option jsstring;
  saveDom : bool
}.

(** [options.wsEndpoint] read as a condition. *)
Definition hasEndpoint (options : RecorderOptions) : bool :=
  match wsEndpoint options with
  | Some s => nonEmpty s
  | None => false
  end.

Definition getBrowserInstance (options : RecorderOptions) : M unit :=
  match wsEndpoint options with
  | Some (c :: s) => send (Puppeteer_connect (c :: s))
  | _ => send Puppeteer_launch
  end.

(** [JSON.stringify(v)]; [None] is [undefined]. *)
Definition JSON_stringify (v : JsValue) : option jsstring :=
  match v with
  | VUndefined => None
  | VNull => Some (lit "null")
  | VBool true => Some (lit "true")
  | VBool false => Some (lit "false")
  | VStr s => Some (quoteJSONString s)
  end.

Definition escapeSelector (selector : JsValue) : option jsstring :=
  JSON_stringify selector.

(** A value substituted into a template literal. *)
Definition interpolate (o : option jsstring) : jsstring :=
  match o with
  | Some s => s
  | None => lit "undefined"
  end.

(** [client.send('Runtime.callFunctionOn', {functionDeclaration, objectId})];
    the protocol rejects a call that names no object. *)
Definition Runtime_callFunctionOn_ (w : World) (fn : PageFunction)
    (objectId : option jsstring) : M RemoteObject :=
  send (Runtime_callFunctionOn fn objectId) ;;
  match objectId with
  | Some o => ret (callFunctionOn w fn o)
  | None => throw ProtocolError
  end.

Definition Runtime_getProperties_ (w : World) (objectId : option jsstring)
  : M (list PropertyDescriptor) :=
  send (Runtime_getProperties objectId) ;;
  match objectId with
  | Some o => ret (getProperties w o)
  | None => throw ProtocolError
  end.

Definition Accessibility_queryAXTree_ (w : World) (q : AXQuery)
  : M (list AXNode) :=
  send (Accessibility_queryAXTree q) ;;
  ret (queryAXTree w q).

Definition isSubmitButton (w : World) (objectId : option jsstring)
  : M JsValue :=
  isSubmitButtonResponse <- Runtime_callFunctionOn_ w helpers_isSubmitButton objectId ;;
  ret (ro_value isSubmitButtonResponse).

Definition optN_eqb (a b : option N) : bool :=
  match a, b with
  | Some x, Some y => (x =? y)%N
  | None, None => true
  | _, _ => false
  end.

(** [ignoredIds.has(id)] for the set of the ignored nodes' ids. *)
Definition ignoredIds_has (ignored : list AXNode) (id : option N) : bool :=
  existsb (fun axNode => optN_eqb (backendDOMNodeId axNode) id) ignored.

Definition checkUnique (w : World) (ignored : list AXNode)
    (name role : option jsstring) : M bool :=
  send (DOM_getDocument 0 false) ;;
  checkName <- Accessibility_queryAXTree_ w
    {| q_objectId := None;
       q_backendNodeId := Some (root_backendNodeId w);
       q_accessibleName := name;
       q_role := role |} ;;
  let checkNameMinusTargetTree :=
    filter (fun axNode => negb (ignoredIds_has ignored (backendDOMNodeId axNode)))
           checkName in
  ret (List.length checkNameMinusTargetTree <? 2)%nat.

(** [currentObjectId] read as the loop condition. *)
Definition idTruthy (o : option jsstring) : bool :=
  match o with
  | Some s => nonEmpty s
  | None => false
  end.

Definition ariaName (name : jsstring) : jsstring :=
  lit "aria/" ++ name.

Definition ariaNameRole (name role : jsstring) : jsstring :=
  lit "aria/" ++ name ++ lit "[role=" ++ [34%N] ++ role ++ [34%N] ++ lit "]".

(** The [while] loop of [getSelector]: [Some sel] when an iteration returns
    [sel], [None] when the loop is left by its condition or a [break]. One
    unit of fuel pays for one iteration. *)
Fixpoint getSelector_walk (fuel : nat) (w : World)
    (currentObjectId : option jsstring) (prevName : jsstring)
  : M (option JsValue) :=
  if idTruthy currentObjectId then
    match fuel with
    | O => diverge
    | S fuel' =>
        targetNodes <- Accessibility_queryAXTree_ w
          {| q_objectId := currentObjectId; q_backendNodeId := None;
             q_accessibleName := None; q_role := None |} ;;
        match targetNodes with
        | [] => ret None
        | axNode :: _ =>
            name <- orThrow TypeError (ax_name axNode) ;;
            role <- orThrow TypeError (ax_role axNode) ;;
            if negb (includes name prevName) then ret None
            else
              uniqueName <- checkUnique w targetNodes (Some name) None ;;
              if nonEmpty name && uniqueName then
                ret (Some (VStr (ariaName name)))
              else
                uniqueNameRole <- checkUnique w targetNodes (Some name) (Some role) ;;
                if nonEmpty name && nonEmpty role && uniqueNameRole then
                  ret (Some (VStr (ariaNameRole name role)))
                else
                  result <- Runtime_callFunctionOn_ w helpers_getParent currentObjectId ;;
                  getSelector_walk fuel' w (ro_objectId result) name
        end
    end
  else ret None.

Definition getSelector (fuel : nat) (w : World) (objectId : option jsstring)
  : M JsValue :=
  found <- getSelector_walk fuel w objectId [] ;;
  match found with
  | Some selector => ret selector
  | None =>
      result <- Runtime_callFunctionOn_ w helpers_cssPath objectId ;;
      ret (ro_value result)
  end.

(** [if (!url.startsWith('http')) url = 'https://' + url] *)
Definition normalizeUrl (url : jsstring) : jsstring :=
  if negb (startsWith url (lit "http")) then lit "https://" ++ url else url.

Definition addLineToPuppeteerScript (line : jsstring) : M unit :=
  identation_ <- gets identation ;;
  match JS.repeat (lit "  ") identation_ with
  | inl e => throw e
  | inr pad => push (Data ((pad ++ line) ++ [10%N]))
  end.

Definition existsSync (fs : list jsstring) (fileName : jsstring) : bool :=
  existsb (JS.eqb fileName) fs.

(** The [while (existsSync(fileName))] loop of [saveDomIfNeeded]. *)
Fixpoint freeFileName (fuel : nat) (fs : list jsstring) (timestamp : N)
    (fileName : jsstring) (suffix : N) : option jsstring :=
  if existsSync fs fileName then
    match fuel with
    | O => None
    | S fuel' =>
        freeFileName fuel' fs timestamp
          (ofN timestamp ++ lit "_" ++ ofN suffix ++ lit ".html")
          (suffix + 1)%N
    end
  else Some fileName.

Definition saveDomIfNeeded (options : RecorderOptions) (w : World) : M unit :=
  if negb (saveDom options) then ret tt
  else
    send (DOM_getDocument (-1) true) ;;
    send (DOM_getOuterHTML (root_nodeId w)) ;;
    let timestamp := (dateNow w / 1000)%N in
    fs <- gets files ;;
    match freeFileName (S (List.length fs)) fs timestamp
            (ofN timestamp ++ lit ".html") 1%N with
    | None => diverge
    | Some fileName =>
        send (Fs_writeFile fileName (outerHTML w)) ;;
        modify (fun st => set_files (fileName :: files st) st) ;;
        addLineToPuppeteerScript (lit "// saved DOM to " ++ fileName)
    end.

(** [page.on('domcontentloaded', ...)] *)
Definition onDomContentLoaded : M unit :=
  send Debugger_enable ;;
  send (DOMDebugger_setEventListenerBreakpoint (lit "click")) ;;
  send (DOMDebugger_setEventListenerBreakpoint (lit "change")) ;;
  send (DOMDebugger_setEventListenerBreakpoint (lit "submit")).

Definition classNameIn (names : list jsstring) (c : option jsstring) : bool :=
  match c with
  | Some s => existsb (JS.eqb s) names
  | None => false
  end.

(** [localFrame.find(prop => names.includes(prop.value.className))], giving
    [event.value]; reading [className] off a missing [value] throws. *)
Fixpoint findEvent (names : list jsstring) (localFrame : list PropertyDescriptor)
  : JsError + option RemoteObject :=
  match localFrame with
  | [] => inr None
  | prop :: rest =>
      match pd_value prop with
      | None => inl TypeError
      | Some v =>
          if classNameIn names (ro_className v) then inr (Some v)
          else findEvent names rest
      end
  end.

Definition findTargetId (w : World) (localFrame : list PropertyDescriptor)
    (interestingClassNames : list jsstring) : M (option jsstring) :=
  match findEvent interestingClassNames localFrame with
  | inl e => throw e
  | inr None => throw TypeError
  | inr (Some eventValue) =>
      eventProperties <- Runtime_getProperties_ w (ro_objectId eventValue) ;;
      target <- orThrow TypeError
        (find (fun prop => JS.eqb (pd_name prop) (lit "target")) eventProperties) ;;
      targetValue <- orThrow TypeError (pd_value target) ;;
      ret (ro_objectId targetValue)
  end.

Definition skip : M unit :=
  send (Debugger_resume false).

Definition resume : M unit :=
  send (Debugger_setSkipAllPauses true) ;;
  skip ;;
  send (Debugger_setSkipAllPauses false).

Definition failedToGenerate : jsstring := lit "failed to generate selector".

Definition handleClickEvent (fuel : nat) (options : RecorderOptions) (w : World)
    (localFrame : list PropertyDescriptor) : M unit :=
  targetId <- findTargetId w localFrame [lit "MouseEvent"; lit "PointerEvent"] ;;
  isSubmit <- isSubmitButton w targetId ;;
  if truthy isSubmit then skip
  else
    selector <- getSelector fuel w targetId ;;
    (if truthy selector then
       saveDomIfNeeded options w ;;
       addLineToPuppeteerScript
         (lit "await click(" ++ interpolate (escapeSelector selector) ++ lit ");")
     else console_log failedToGenerate) ;;
    resume.

Definition handleSubmitEvent (fuel : nat) (w : World)
    (localFrame : list PropertyDescriptor) : M unit :=
  targetId <- findTargetId w localFrame [lit "SubmitEvent"] ;;
  selector <- getSelector fuel w targetId ;;
  (if truthy selector then
     addLineToPuppeteerScript
       (lit "await submit(" ++ interpolate (escapeSelector selector) ++ lit ");")
   else console_log failedToGenerate) ;;
  resume.

Definition handleChangeEvent (fuel : nat) (w : World)
    (localFrame : list PropertyDescriptor) : M unit :=
  targetId <- findTargetId w localFrame [lit "Event"] ;;
  targetValue <- Runtime_callFunctionOn_ w getThisValue targetId ;;
  let value := ro_value targetValue in
  selector <- getSelector fuel w targetId ;;
  addLineToPuppeteerScript
    (lit "await type(" ++ interpolate (escapeSelector selector) ++ lit ", "
       ++ interpolate (escapeSelector value) ++ lit ");") ;;
  resume.

Definition scrollHeightExpression : jsstring :=
  lit "document.scrollingElement.scrollHeight".

(** [a > b] on two measurements; a measurement that gave nothing compares
    false. *)
Definition heightGrew (current prev : option Z) : bool :=
  match current, prev with
  | Some c, Some p => (c >? p)%Z
  | _, _ => false
  end.

Definition handleScrollEvent (w : World) : M unit :=
  outstanding <- gets scrollTimeout ;;
  if outstanding then resume
  else
    send (Runtime_evaluate scrollHeightExpression) ;;
    let prev := scrollHeight w in
    modify (fun st =>
      set_scroll true (timers st ++ [{| delay := 1000; prevScrollHeight := prev |}]) st) ;;
    resume.

(** The callback handed to [setTimeout] by [handleScrollEvent]. *)
Definition scrollTimerCallback (w : World) (t : Timer) : M unit :=
  send (Runtime_evaluate scrollHeightExpression) ;;
  (if heightGrew (scrollHeight w) (prevScrollHeight t)
   then addLineToPuppeteerScript (lit "await scrollToBottom();")
   else ret tt) ;;
  modify (fun st => set_scroll false (timers st) st).

(** Debugger.PausedEvent: [data.eventName] ([None] when the pause carries no
    [data]) and the object id of [callFrames[0].scopeChain[0]]. *)
Record PausedEvent := {
  pe_data : option (option jsstring);
  pe_localFrame : option jsstring
}.

Definition isEvent (eventName : option jsstring) (s : string) : bool :=
  match eventName with
  | Some e => JS.eqb e (lit s)
  | None => false
  end.

(** [client.on('Debugger.paused', ...)] *)
Definition onPaused (fuel : nat) (options : RecorderOptions) (w : World)
    (pausedEvent : PausedEvent) : M unit :=
  eventName <- orThrow TypeError (pe_data pausedEvent) ;;
  result <- Runtime_getProperties_ w (pe_localFrame pausedEvent) ;;
  if isEvent eventName "listener:click" then handleClickEvent fuel options w result
  else if isEvent eventName "listener:submit" then handleSubmitEvent fuel w result
  else if isEvent eventName "listener:change" then handleChangeEvent fuel w result
  else if isEvent eventName "listener:scroll" then handleScrollEvent w
  else skip.

Definition requireLine : jsstring :=
  lit "const {open, click, type, submit, expect, scrollToBottom} = require('@puppeteer/recorder');".

Definition openLine (url : jsstring) : jsstring :=
  lit "open('" ++ url ++ lit "', {}, async (page) => {".

(** The default export up to its [return output]. *)
Definition start (url : jsstring) (options : RecorderOptions) : M unit :=
  let url := normalizeUrl url in
  getBrowserInstance options ;;
  addLineToPuppeteerScript requireLine ;;
  addLineToPuppeteerScript (openLine url) ;;
  modify (fun st => set_identation (identation st + 1) st) ;;
  send (Page_goto url).

(** [page.on('framenavigated', ...)]; [hasParent] is [frame.parentFrame()]
    read as a condition. *)
Definition onFrameNavigated (hasParent : bool) (frameUrl : jsstring) : M unit :=
  if hasParent then ret tt
  else
    addLineToPuppeteerScript
      (lit "expect(page.url()).resolves.toBe("
         ++ interpolate (escapeSelector (VStr frameUrl)) ++ lit ");").

Definition closeLine : jsstring := lit "});".

(** [close()] up to the point where it waits for [browser.close()]. *)
Definition close (options : RecorderOptions) : M unit :=
  modify (fun st => set_identation (identation st - 1) st) ;;
  addLineToPuppeteerScript closeLine ;;
  push EndOfStream ;;
  if negb (hasEndpoint options) then send Browser_close else ret tt.

Definition process_exit : M unit :=
  send Process_exit ;;
  modify (set_exit false true).

(** [process.on('SIGINT', ...)]: [process.exit()] runs once [close()] has
    resolved, at once when there is no browser of our own to wait for. *)
Definition onSigint (options : RecorderOptions) : M unit :=
  close options ;;
  if hasEndpoint options then process_exit
  else modify (fun st => set_exit true (exited st) st).

(** ** The event loop *)

(** What the process is woken by once [start] has returned. The process is
    single-threaded and the session delivers no pause before the previous
    one is resumed, so a handler is taken to run to its end before the next
    event is handled; what it writes to the session it writes in the order
    of the source. [BrowserClosed] is the one suspension that is kept
    apart: the [await browser.close()] at the end of [close()], after
    which the interrupt handler goes on to [process.exit()]. *)
Inductive Event :=
| DomContentLoaded
| DebuggerPaused (w : World) (pausedEvent : PausedEvent)
| TimerFired (w : World)
| FrameNavigated (hasParent : bool) (frameUrl : jsstring)
| PageClose
| Sigint
| BrowserClosed.

Definition onTimerFired (w : World) : M unit :=
  pending <- gets timers ;;
  match pending with
  | [] => ret tt
  | t :: rest =>
      modify (fun st => set_scroll (scrollTimeout st) rest st) ;;
      scrollTimerCallback w t
  end.

Definition onBrowserClosed : M unit :=
  waiting <- gets exitPending ;;
  if waiting then process_exit else ret tt.

Definition handle (fuel : nat) (options : RecorderOptions) (ev : Event) : M unit :=
  match ev with
  | DomContentLoaded => onDomContentLoaded
  | DebuggerPaused w pausedEvent => onPaused fuel options w pausedEvent
  | TimerFired w => onTimerFired w
  | FrameNavigated hasParent frameUrl => onFrameNavigated hasParent frameUrl
  | PageClose => close options
  | Sigint => onSigint options
  | BrowserClosed => onBrowserClosed
  end.

(** One turn of the loop; a process that has exited handles nothing. *)
Definition step (fuel : nat) (options : RecorderOptions) (st : Session)
    (ev : Event) : Session :=
  if exited st then st else snd (handle fuel options ev st).

Definition run (fuel : nat) (options : RecorderOptions) (st : Session)
    (evs : list Event) : Session :=
  fold_left (step fuel options) evs st.

(** The session before [start] has done anything. *)
Definition initial : Session :=
  {| identation := 0; output := []; console := []; sent := [];
     scrollTimeout := false; timers := []; files := [];
     exitPending := false; exited := false |}.

(** The session [start] leaves behind. *)
Definition started (url : jsstring) (options : RecorderOptions) : Session :=
  snd (start url options initial).

(* ================================================================== *)
(** ** A synthetic page *)
(* ================================================================== *)

(** A small page to run the recorder on: elements in document order, each
    with its accessible name and role, and a session that answers the
    protocol from them. The document node has backend id 0. *)
Module Synthetic.

Record Element := {
  el_id : N;
  el_parent : option N;
  el_name : jsstring;
  el_role : jsstring;
  el_submit : bool;
  el_value : JsValue;
  el_css : JsValue
}.

Definition objectIdOf (id : N) : jsstring := lit "node-" ++ ofN id.

Definition byObjectId (doc : list Element) (o : jsstring) : option Element :=
  find (fun e => JS.eqb (objectIdOf (el_id e)) o) doc.

Definition byId (doc : list Element) (id : N) : option Element :=
  find (fun e => (el_id e =? id)%N) doc.

Fixpoint inSubtree (fuel : nat) (doc : list Element) (top : N) (e : Element)
  : bool :=
  (el_id e =? top)%N ||
  match fuel, el_parent e with
  | S fuel', Some p =>
      match byId doc p with
      | Some pe => inSubtree fuel' doc top pe
      | None => false
      end
  | _, _ => false
  end.

Definition subtree (doc : list Element) (top : N) : list Element :=
  filter (inSubtree (List.length doc) doc top) doc.

Definition axOf (e : Element) : AXNode :=
  {| backendDOMNodeId := Some (el_id e);
     ax_name := Some (el_name e);
     ax_role := Some (el_role e) |}.

Definition matches (name role : option jsstring) (e : Element) : bool :=
  match name with Some n => JS.eqb n (el_name e) | None => true end &&
  match role with Some r => JS.eqb r (el_role e) | None => true end.

Definition query (doc : list Element) (q : AXQuery) : list AXNode :=
  let scope :=
    match q_objectId q, q_backendNodeId q with
    | Some o, _ =>
        match byObjectId doc o with
        | Some e => subtree doc (el_id e)
        | None => []
        end
    | None, Some 0%N => doc
    | None, Some b => subtree doc b
    | None, None => []
    end in
  map axOf (filter (matches (q_accessibleName q) (q_role q)) scope).

Definition plain (v : JsValue) : RemoteObject :=
  {| ro_className := None; ro_objectId := None; ro_value := v |}.

Definition handleTo (cls : option jsstring) (o : option jsstring) : RemoteObject :=
  {| ro_className := cls; ro_objectId := o; ro_value := VUndefined |}.

Definition call (doc : list Element) (fn : PageFunction) (o : jsstring)
  : RemoteObject :=
  match byObjectId doc o with
  | None => plain VUndefined
  | Some e =>
      match fn with
      | helpers_isSubmitButton => plain (VBool (el_submit e))
      | helpers_getParent => handleTo None (option_map objectIdOf (el_parent e))
      | helpers_cssPath => plain (el_css e)
      | getThisValue => plain (el_value e)
      end
  end.

(** The local scope of a paused listener holds the event; the event holds
    its target. *)
Definition properties (cls : jsstring) (target : N) (o : jsstring)
  : list PropertyDescriptor :=
  if JS.eqb o (lit "scope") then
    [ {| pd_name := lit "event";
         pd_value := Some (handleTo (Some cls) (Some (lit "event"))) |} ]
  else if JS.eqb o (lit "event") then
    [ {| pd_name := lit "type"; pd_value := Some (plain (VStr cls)) |};
      {| pd_name := lit "target";
         pd_value := Some (handleTo (Some (lit "HTMLElement"))
                                    (Some (objectIdOf target))) |} ]
  else [].

(** The page [doc], paused in a listener whose event has class [cls] and
    target [target], with the scroll container [height] high. *)
Definition world (doc : list Element) (cls : jsstring) (target : N)
    (height : option Z) : World :=
  {| root_nodeId := 1; root_backendNodeId := 0;
     queryAXTree := query doc;
     callFunctionOn := call doc;
     getProperties := properties cls target;
     scrollHeight := height;
     outerHTML := lit "<html></html>";
     dateNow := 1600000000123 |}.

Definition paused (eventName : string) : PausedEvent :=
  {| pe_data := Some (Some (lit eventName));
     pe_localFrame := Some (lit "scope") |}.

Definition element (id : N) (parent : option N) (name role : string) : Element :=
  {| el_id := id; el_parent := parent; el_name := lit name; el_role := lit role;
     el_submit := false; el_value := VUndefined;
     el_css := VStr (lit "#e" ++ ofN id) |}.

(** Three nodes named Login, one of them the button. *)
Definition loginPage : list Element :=
  [ element 1 None "" "main";
    element 2 (Some 1%N) "Login" "heading";
    element 3 (Some 1%N) "Login" "link";
    element 4 (Some 1%N) "Login" "button" ].

(** A toolbar whose name loses the context of what it contains. *)
Definition toolbarPage : list Element :=
  [ element 1 None "Toolbar" "toolbar";
    element 2 (Some 1%N) "Save draft" "group";
    element 3 (Some 2%N) "Save" "button";
    element 4 (Some 1%N) "Save draft" "group";
    element 5 (Some 4%N) "Save" "button";
    element 6 (Some 1%N) "Save" "button";
    element 7 (Some 1%N) "Save draft" "group" ].

(** Three Delete buttons; the first sits in a group with a name of its own. *)
Definition cardPage : list Element :=
  [ element 1 None "" "main";
    element 2 (Some 1%N) "Delete Reports" "group";
    element 3 (Some 2%N) "Delete" "button";
    element 4 (Some 1%N) "Delete Drafts" "group";
    element 5 (Some 4%N) "Delete" "button";
    element 6 (Some 1%N) "Delete" "button" ].

(** A form: a text field that has no CSS path, and the submit button. *)
Definition formPage : list Element :=
  [ element 1 None "" "form";
    {| el_id := 2; el_parent := Some 1%N; el_name := []; el_role := lit "textbox";
       el_submit := false; el_value := VStr (lit "O'Brien"); el_css := VNull |};
    {| el_id := 3; el_parent := Some 1%N; el_name := lit "Send"; el_role := lit "button";
       el_submit := true; el_value := VStr []; el_css := VStr (lit "#send") |} ].

Definition options0 : RecorderOptions :=
  {| wsEndpoint := None; saveDom := false |}.

Definition attached : RecorderOptions :=
  {| wsEndpoint := Some (lit "ws://127.0.0.1:9222/devtools/browser/1");
     saveDom := false |}.

End Synthetic.

Import Synthetic.

(* ================================================================== *)
(** ** The vocabulary of the properties *)
(* ================================================================== *)

(** [m] reads nothing of the session and changes nothing but the list of
    commands sent: its outcome and its commands are those of a run from
    [initial]. *)
Definition sendsOnly {A} (m : M A) : Prop :=
  forall st, m st = (fst (m initial), set_sent (sent st ++ sent (snd (m initial))) st).

(** [m] takes every session to one related to it by [R], however it ends. *)
Definition frame {A} (R : Session -> Session -> Prop) (m : M A) : Prop :=
  forall st, R st (snd (m st)).

(** A line of the script body: it starts with a character that is neither a
    space nor a closing brace. *)
Definition interactionLine (line : jsstring) : Prop :=
  exists c rest, line = c :: rest /\ c <> 32%N /\ c <> 125%N.

(** [n] spaces. *)
Definition spaces (n : nat) : jsstring := List.repeat 32%N n.

(** What [output.push] receives for [line] at indentation [level]. *)
Definition lineAt (level : Z) (line : jsstring) : Chunk :=
  Data ((spaces (2 * Z.to_nat level) ++ line) ++ [10%N]).



(** The query for the accessibility subtree of one object. *)
Definition byObject (o : option jsstring) : AXQuery :=
  {| q_objectId := o; q_backendNodeId := None;
     q_accessibleName := None; q_role := None |}.

(** The query over the whole document, filtered by name and role. *)
Definition byDocument (w : World) (name role : option jsstring) : AXQuery :=
  {| q_objectId := None; q_backendNodeId := Some (root_backendNodeId w);
     q_accessibleName := name; q_role := role |}.

(** The answers to the document query that are not nodes of [candidate]. *)
Definition remaining (w : World) (candidate : list AXNode)
    (name role : option jsstring) : list AXNode :=
  filter (fun n => negb (ignoredIds_has candidate (backendDOMNodeId n)))
         (queryAXTree w (byDocument w name role)).

(** The walk of [getSelector] from [objectId]: after [k] iterations that
    neither returned nor left the loop, the next one starts at
    [currentObjectId] with [prevName]. *)
Inductive Reaches (w : World) (objectId : option jsstring)
  : nat -> option jsstring -> jsstring -> Prop :=
| Reaches_target : Reaches w objectId 0 objectId []
| Reaches_parent k cur prev axNode rest name role :
    Reaches w objectId k (Some cur) prev ->
    nonEmpty cur = true ->
    queryAXTree w (byObject (Some cur)) = axNode :: rest ->
    ax_name axNode = Some name ->
    ax_role axNode = Some role ->
    includes name prev = true ->
    nonEmpty name
      && (List.length (remaining w (axNode :: rest) (Some name) None) <? 2)%nat
    = false ->
    nonEmpty name && nonEmpty role
      && (List.length (remaining w (axNode :: rest) (Some name) (Some role)) <? 2)%nat
    = false ->
    Reaches w objectId (S k)
      (ro_objectId (callFunctionOn w helpers_getParent cur)) name.

(** The commands of one full iteration that moves on to the parent. *)
Definition iterationCommands (w : World) (cur name role : jsstring) : list Command :=
  [ Accessibility_queryAXTree (byObject (Some cur));
    DOM_getDocument 0 false;
    Accessibility_queryAXTree (byDocument w (Some name) None);
    DOM_getDocument 0 false;
    Accessibility_queryAXTree (byDocument w (Some name) (Some role));
    Runtime_callFunctionOn helpers_getParent (Some cur) ].

(** A chunk of the script other than the closing line: text that does not
    start with a closing brace. *)
Definition bodyChunk (c : Chunk) : Prop :=
  exists ch l, c = Data (ch :: l) /\ ch <> 125%N.

Definition isEndOfStream (c : Chunk) : bool :=
  match c with EndOfStream => true | Data _ => false end.

(** Between [start] and the first [close()]. *)
Definition recording (st : Session) : Prop :=
  identation st = 1%Z /\ exited st = false /\ exitPending st = false /\
  Forall bodyChunk (output st).

(** From the first [close()] on: the closing line and the end-of-stream
    marker were pushed once, one right after the other. *)
Definition finished (st : Session) : Prop :=
  (identation st <= 0)%Z /\
  exists pre post,
    output st = pre ++ [lineAt 0 closeLine; EndOfStream] ++ post /\
    Forall bodyChunk pre /\ Forall bodyChunk post.

(** What a handler other than [close] may do to the script. *)
Definition extendsBody (st st' : Session) : Prop :=
  identation st' = identation st /\ exited st' = exited st /\
  exitPending st' = exitPending st /\
  exists added, output st' = output st ++ added /\ Forall bodyChunk added.

Definition isTrigger (ev : Event) : bool :=
  match ev with PageClose | Sigint => true | _ => false end.

Definition Event_BrowserClosed_dec (ev : Event) :
  {ev = BrowserClosed} + {ev <> BrowserClosed}.
Proof. destruct ev; first [left; reflexivity | right; discriminate]. Defined.

(** What a handler other than [close] does to a script that is at depth
    one: it adds lines at depth one and stays there. *)
Definition extendsAtDepthOne (st st' : Session) : Prop :=
  identation st = 1%Z ->
  identation st' = 1%Z /\ exited st' = exited st /\
  exitPending st' = exitPending st /\
  exists lines, output st' = output st ++ map (lineAt 1) lines.

(* ================================================================== *)
(** ** The command line *)
(* ================================================================== *)

(** [args.indexOf(x)]; [None] is -1. *)
Fixpoint indexOf (args : list jsstring) (x : jsstring) : option nat :=
  match args with
  | [] => None
  | a :: rest =>
      if JS.eqb a x then Some O
      else match indexOf rest x with
           | Some i => Some (S i)
           | None => None
           end
  end.

(** [args.splice(start, deleteCount)], for what it leaves in [args]. *)
Definition splice (args : list jsstring) (start deleteCount : nat)
  : list jsstring :=
  firstn start args ++ skipn (start + deleteCount) args.

(** How the command-line script ends: it throws, it prints [url required.]
    and exits with status 1, or it calls the recorder and pipes its output
    to the standard output and, when [outputFile] is a non-empty string, to
    that file. *)
Inductive CliOutcome :=
| FilenameRequired
| UrlRequired
| Records (url : jsstring) (options : RecorderOptions)
          (outputFile : option jsstring).

(** The script from [const url = args[0]] on. *)
Definition cliRun (args : list jsstring) (saveDom_ : bool)
    (outputFile : option jsstring) : CliOutcome :=
  match args with
  | url :: _ =>
      if nonEmpty url
      then Records url {| wsEndpoint := None; saveDom := saveDom_ |} outputFile
      else UrlRequired
  | [] => UrlRequired
  end.

(** The command-line script on [process.argv.slice(2)]. *)
Definition cli (args : list jsstring) : CliOutcome :=
  let saveDomIndex := indexOf args (lit "--save_dom") in
  let saveDom_ := match saveDomIndex with Some _ => true | None => false end in
  let args := match saveDomIndex with
              | Some i => splice args i 1
              | None => args
              end in
  match indexOf args (lit "--output") with
  | Some fileNameIndex =>
      if (fileNameIndex =? List.length args - 1)%nat then FilenameRequired
      else cliRun (splice args fileNameIndex 2) saveDom_
                  (nth_error args (fileNameIndex + 1))
  | None => cliRun args saveDom_ None
  end.

(* ================================================================== *)
(** ** More vocabulary: the walk and the commands *)
(* ================================================================== *)

(** The object [n] steps up from [o] along [helpers.getParent], as the loop
    of [getSelector] follows it; [None] past the top. *)
Fixpoint ancestor (w : World) (n : nat) (o : option jsstring)
  : option jsstring :=
  match n with
  | O => o
  | S n' =>
      match o with
      | Some cur =>
          if nonEmpty cur
          then ancestor w n' (ro_objectId (callFunctionOn w helpers_getParent cur))
          else None
      | None => None
      end
  end.

(** [v] is an accessible selector made from the node of [obj], whose name
    is [name]: the name is not empty, and the uniqueness test passed for the
    name alone, or failed for it and passed for name and role. *)
Definition chosenAt (w : World) (obj : jsstring) (v : JsValue) (name : jsstring)
  : Prop :=
  exists node rest,
    queryAXTree w (byObject (Some obj)) = node :: rest /\
    ax_name node = Some name /\ name <> [] /\
    ((v = VStr (ariaName name) /\
      (List.length (remaining w (node :: rest) (Some name) None) < 2)%nat)
     \/ (exists role,
           ax_role node = Some role /\ role <> [] /\
           v = VStr (ariaNameRole name role) /\
           ~ (List.length (remaining w (node :: rest) (Some name) None) < 2)%nat /\
           (List.length (remaining w (node :: rest) (Some name) (Some role)) < 2)%nat)).

(** From [st] to [st'] the list of commands sent only grew, by commands
    that satisfy [P]. *)
Definition appends (P : Command -> Prop) (st st' : Session) : Prop :=
  exists added, sent st' = sent st ++ added /\ Forall P added.




(** The commands a recorder started with [options] sends at all. *)
Definition allowed (options : RecorderOptions) (c : Command) : Prop :=
  match c with
  | Puppeteer_connect e => wsEndpoint options = Some e /\ nonEmpty e = true
  | Puppeteer_launch => hasEndpoint options = false
  | Browser_close => hasEndpoint options = false
  | Fs_writeFile _ _ | DOM_getOuterHTML _ => saveDom options = true
  | DOM_getDocument depth pierce =>
      (depth = 0%Z /\ pierce = false)
      \/ (depth = (-1)%Z /\ pierce = true /\ saveDom options = true)
  | DOMDebugger_setEventListenerBreakpoint e =>
      e = lit "click" \/ e = lit "change" \/ e = lit "submit"
  | Runtime_evaluate e => e = scrollHeightExpression
  | Debugger_resume terminateOnResume => terminateOnResume = false
  | Page_goto _ | Process_exit | Debugger_enable
  | Accessibility_queryAXTree _ | Runtime_callFunctionOn _ _
  | Runtime_getProperties _ | Debugger_setSkipAllPauses _ => True
  end.

(** The name [saveDomIfNeeded] tries for a snapshot taken at [timestamp]
    after [suffix - 1] names were found taken. *)
Definition snapshotName (timestamp suffix : N) : jsstring :=
  ofN timestamp ++ lit "_" ++ ofN suffix ++ lit ".html".

(** A command of the recording itself: neither [browser.close()] nor
    [process.exit()]. *)
Definition bodyCommand (c : Command) : Prop :=
  c <> Browser_close /\ c <> Process_exit.

(* ================================================================== *)
(** ** Strings: what the primitives compute *)
(* ================================================================== *)

Lemma eqb_eq (a b : jsstring) : JS.eqb a b = true <-> a = b.
Proof.
  revert b; induction a as [|c a IH]; intros [|d b]; simpl;
    try (split; [discriminate | discriminate]); try tauto.
  rewrite andb_true_iff, N.eqb_eq, IH.
  split; [intros [-> ->]; reflexivity | intros H; inversion H; auto].
Qed.

Lemma eqb_refl (a : jsstring) : JS.eqb a a = true.
Proof. apply eqb_eq; reflexivity. Qed.

Lemma startsWith_prefix (s p : jsstring) :
  startsWith s p = true <-> exists t, s = p ++ t.
Proof.
  revert s; induction p as [|c p IH]; intros s; simpl.
  - split; [intros _; exists s; reflexivity | destruct s; reflexivity].
  - destruct s as [|d s].
    + split; [discriminate | intros [t H]; discriminate].
    + simpl. rewrite andb_true_iff, N.eqb_eq, IH. split.
      * intros [-> [t ->]]. exists t; reflexivity.
      * intros [t H]. inversion H. split; [reflexivity | exists t; reflexivity].
Qed.

Lemma includes_cons (c : N) (s sub : jsstring) :
  includes (c :: s) sub = startsWith (c :: s) sub || includes s sub.
Proof. reflexivity. Qed.

Lemma includes_nil (sub : jsstring) : includes [] sub = startsWith [] sub.
Proof. unfold includes. apply orb_false_r. Qed.

(** [includes] is the substring test. *)
Lemma includes_substring (s sub : jsstring) :
  includes s sub = true <-> exists pre post, s = pre ++ sub ++ post.
Proof.
  induction s as [|c s IH].
  - rewrite includes_nil, startsWith_prefix. split.
    + intros [t H]. exists [], t. exact H.
    + intros [pre [post H]]. destruct pre; [exists post; exact H | discriminate].
  - rewrite includes_cons, orb_true_iff, startsWith_prefix, IH. split.
    + intros [[t H] | [pre [post H]]].
      * exists [], t. exact H.
      * exists (c :: pre), post. simpl. rewrite H. reflexivity.
    + intros [[|d pre] [post H]].
      * left. exists post. exact H.
      * right. inversion H. exists pre, post. reflexivity.
Qed.

(** *** A quoted string reads back as itself *)

Lemma hexVal_hexDigit (d : N) : (d < 16)%N -> hexVal (hexDigit d) = Some d.
Proof.
  intros H. destruct d as [|p]; [reflexivity|].
  do 4 (destruct p as [p|p|]; try reflexivity; try lia).
Qed.

Lemma hex_digits (c : N) :
  (c < 65536)%N ->
  ((((c / 4096) * 16 + (c / 256) mod 16) * 16 + (c / 16) mod 16) * 16
     + c mod 16)%N = c.
Proof.
  intros _.
  assert (H1 := N.Div0.div_mod c 16).
  assert (H2 := N.Div0.div_mod (c / 16) 16).
  assert (H3 := N.Div0.div_mod (c / 256) 16).
  rewrite N.Div0.div_div in H2, H3.
  change (16 * 16)%N with 256%N in H2.
  change (256 * 16)%N with 4096%N in H3.
  lia.
Qed.

Lemma literalChars_plain (q c : N) (rest : jsstring) :
  c <> q -> c <> 92%N -> c <> 10%N -> c <> 13%N ->
  literalChars q (c :: rest) = consChar c (literalChars q rest).
Proof.
  intros Hq Hb Hn Hr. simpl.
  apply N.eqb_neq in Hq, Hb, Hn, Hr. rewrite Hq, Hb, Hn, Hr. reflexivity.
Qed.

Lemma literalChars_u (h1 h2 h3 h4 : N) (rest : jsstring) :
  literalChars 34 (92 :: 117 :: h1 :: h2 :: h3 :: h4 :: rest)%N =
  match hexVal h1, hexVal h2, hexVal h3, hexVal h4 with
  | Some a, Some b, Some c, Some d =>
      consChar (((a * 16 + b) * 16 + c) * 16 + d)%N (literalChars 34 rest)
  | _, _, _, _ => None
  end.
Proof. reflexivity. Qed.

Lemma literalChars_unicodeEscape (c : N) (rest : jsstring) :
  (c < 65536)%N ->
  literalChars 34 (unicodeEscape c ++ rest) = consChar c (literalChars 34 rest).
Proof.
  intros H. unfold unicodeEscape.
  change (literalChars 34 ([92; 117; hexDigit (c / 4096); hexDigit ((c / 256) mod 16);
            hexDigit ((c / 16) mod 16); hexDigit (c mod 16)]%N ++ rest))
    with (literalChars 34 (92 :: 117 :: hexDigit (c / 4096) :: hexDigit ((c / 256) mod 16)
            :: hexDigit ((c / 16) mod 16) :: hexDigit (c mod 16) :: rest)%N).
  rewrite literalChars_u.
  rewrite !hexVal_hexDigit; try (apply N.mod_lt; discriminate).
  - rewrite hex_digits by exact H. reflexivity.
  - apply N.Div0.div_lt_upper_bound. exact H.
Qed.

Lemma literalChars_quoteUnit (c : N) (rest : jsstring) :
  literalChars 34 (quoteUnit c ++ rest) = consChar c (literalChars 34 rest).
Proof.
  unfold quoteUnit.
  repeat match goal with
  | |- context [ if (c =? ?k)%N then _ else _ ] =>
      destruct (N.eqb_spec c k); [subst c; reflexivity|]
  end.
  destruct (N.ltb_spec c 32).
  - apply literalChars_unicodeEscape. lia.
  - change ([c] ++ rest) with (c :: rest). apply literalChars_plain; lia.
Qed.

Lemma surrogate_bounds (c : N) :
  isLeadingSurrogate c = true \/ isTrailingSurrogate c = true ->
  (55296 <= c < 65536)%N.
Proof.
  unfold isLeadingSurrogate, isTrailingSurrogate.
  rewrite !andb_true_iff, !N.leb_le. lia.
Qed.

Lemma literalChars_surrogate (c : N) (rest : jsstring) :
  isLeadingSurrogate c = true \/ isTrailingSurrogate c = true ->
  literalChars 34 (c :: rest) = consChar c (literalChars 34 rest).
Proof.
  intros H. apply surrogate_bounds in H. apply literalChars_plain; lia.
Qed.

Lemma literalChars_quoteChars (s rest : jsstring) :
  literalChars 34 (quoteChars s ++ 34%N :: rest) = Some (s, rest).
Proof.
  revert rest.
  enough (H : (forall rest, literalChars 34 (quoteChars s ++ 34%N :: rest) = Some (s, rest))
              /\ forall c rest,
                   literalChars 34 (quoteChars (c :: s) ++ 34%N :: rest)
                   = Some (c :: s, rest)) by apply H.
  induction s as [|d s [IH0 IH1]].
  - split; [reflexivity|].
    intros c rest.
    change (quoteChars [c]) with
      (if isLeadingSurrogate c then unicodeEscape c
       else if isTrailingSurrogate c then unicodeEscape c ++ []
       else quoteUnit c ++ []).
    destruct (isLeadingSurrogate c) eqn:Hl.
    + rewrite literalChars_unicodeEscape by (apply surrogate_bounds; auto).
      reflexivity.
    + destruct (isTrailingSurrogate c) eqn:Ht.
      * rewrite <- app_assoc, literalChars_unicodeEscape
          by (apply surrogate_bounds; auto).
        reflexivity.
      * rewrite <- app_assoc, literalChars_quoteUnit. reflexivity.
  - split; [apply IH1|].
    intros c rest.
    change (quoteChars (c :: d :: s)) with
      (if isLeadingSurrogate c then
         if isTrailingSurrogate d then c :: d :: quoteChars s
         else unicodeEscape c ++ quoteChars (d :: s)
       else if isTrailingSurrogate c then unicodeEscape c ++ quoteChars (d :: s)
       else quoteUnit c ++ quoteChars (d :: s)).
    destruct (isLeadingSurrogate c) eqn:Hl.
    + destruct (isTrailingSurrogate d) eqn:Ht.
      * change ((c :: d :: quoteChars s) ++ 34%N :: rest)
          with (c :: d :: (quoteChars s ++ 34%N :: rest)).
        rewrite !literalChars_surrogate by auto.
        rewrite IH0. reflexivity.
      * rewrite <- app_assoc, literalChars_unicodeEscape
          by (apply surrogate_bounds; auto).
        rewrite IH1. reflexivity.
    + destruct (isTrailingSurrogate c) eqn:Ht.
      * rewrite <- app_assoc, literalChars_unicodeEscape
          by (apply surrogate_bounds; auto).
        rewrite IH1. reflexivity.
      * rewrite <- app_assoc, literalChars_quoteUnit, IH1. reflexivity.
Qed.

(** [JSON.stringify] of a string, followed by any text, reads back as a
    string literal whose value is that string. *)
Lemma stringLiteral_quoteJSONString (s rest : jsstring) :
  stringLiteral (quoteJSONString s ++ rest) = Some (s, rest).
Proof.
  unfold quoteJSONString.
  change ((34%N :: quoteChars s ++ [34%N]) ++ rest)
    with (34%N :: ((quoteChars s ++ [34%N]) ++ rest)).
  rewrite <- app_assoc. simpl app.
  change (stringLiteral (34%N :: quoteChars s ++ 34%N :: rest))
    with (literalChars 34 (quoteChars s ++ 34%N :: rest)).
  apply literalChars_quoteChars.
Qed.

(* ================================================================== *)
(** ** Computations that only talk to the browser *)
(* ================================================================== *)

Lemma set_sent_nil (st : Session) : set_sent (sent st ++ []) st = st.
Proof. destruct st; unfold set_sent; simpl. rewrite app_nil_r. reflexivity. Qed.

Lemma set_sent_twice (st : Session) (c1 c2 : list Command) :
  set_sent (sent (set_sent (sent st ++ c1) st) ++ c2) (set_sent (sent st ++ c1) st)
  = set_sent (sent st ++ c1 ++ c2) st.
Proof. destruct st; unfold set_sent; simpl. rewrite app_assoc. reflexivity. Qed.

Lemma sendsOnly_ret {A} (a : A) : sendsOnly (ret a).
Proof. intros st. unfold ret; simpl. rewrite set_sent_nil. reflexivity. Qed.

Lemma sendsOnly_throw {A} (e : JsError) : sendsOnly (@throw A e).
Proof. intros st. unfold throw; simpl. rewrite set_sent_nil. reflexivity. Qed.

Lemma sendsOnly_diverge {A} : sendsOnly (@diverge A).
Proof. intros st. unfold diverge; simpl. rewrite set_sent_nil. reflexivity. Qed.

Lemma sendsOnly_send (c : Command) : sendsOnly (send c).
Proof. intros st. reflexivity. Qed.

Lemma sendsOnly_orThrow {A} (e : JsError) (o : option A) : sendsOnly (orThrow e o).
Proof. destruct o; [apply sendsOnly_ret | apply sendsOnly_throw]. Qed.

Lemma sendsOnly_bind {A B} (m : M A) (k : A -> M B) :
  sendsOnly m -> (forall a, sendsOnly (k a)) -> sendsOnly (bind m k).
Proof.
  intros Hm Hk st. unfold bind.
  rewrite (Hm st).
  destruct (m initial) as [r st0] eqn:E0. cbn [fst snd].
  destruct r as [a| e |]; try reflexivity.
  rewrite (Hk a (set_sent (sent st ++ sent st0) st)), (Hk a st0).
  cbn [fst snd]. rewrite set_sent_twice.
  destruct st0; reflexivity.
Qed.

Ltac sends_only :=
  repeat first
    [ apply sendsOnly_ret | apply sendsOnly_throw | apply sendsOnly_diverge
    | apply sendsOnly_send | apply sendsOnly_orThrow
    | apply sendsOnly_bind; [| intros ]
    | match goal with
      | |- sendsOnly (match ?x with _ => _ end) => destruct x
      end
    | assumption ].

Lemma sendsOnly_callFunctionOn (w : World) (fn : PageFunction) (o : option jsstring) :
  sendsOnly (Runtime_callFunctionOn_ w fn o).
Proof. unfold Runtime_callFunctionOn_. sends_only. Qed.

Lemma sendsOnly_getProperties (w : World) (o : option jsstring) :
  sendsOnly (Runtime_getProperties_ w o).
Proof. unfold Runtime_getProperties_. sends_only. Qed.

Lemma sendsOnly_queryAXTree (w : World) (q : AXQuery) :
  sendsOnly (Accessibility_queryAXTree_ w q).
Proof. unfold Accessibility_queryAXTree_. sends_only. Qed.

Lemma sendsOnly_isSubmitButton (w : World) (o : option jsstring) :
  sendsOnly (isSubmitButton w o).
Proof.
  unfold isSubmitButton. sends_only.
Qed.

Lemma sendsOnly_checkUnique (w : World) (ignored : list AXNode)
    (name role : option jsstring) :
  sendsOnly (checkUnique w ignored name role).
Proof.
  unfold checkUnique. sends_only.
Qed.

Lemma sendsOnly_findTargetId (w : World) (localFrame : list PropertyDescriptor)
    (names : list jsstring) :
  sendsOnly (findTargetId w localFrame names).
Proof.
  unfold findTargetId. sends_only.
Qed.

Lemma sendsOnly_getSelector_walk (fuel : nat) (w : World) :
  forall cur prev, sendsOnly (getSelector_walk fuel w cur prev).
Proof.
  induction fuel as [|fuel IH]; intros cur prev; simpl.
  - destruct (idTruthy cur); sends_only.
  - destruct (idTruthy cur); sends_only;
      try apply sendsOnly_queryAXTree; try apply sendsOnly_checkUnique;
      try apply sendsOnly_callFunctionOn; try apply IH.
Qed.

Lemma sendsOnly_getSelector (fuel : nat) (w : World) (o : option jsstring) :
  sendsOnly (getSelector fuel w o).
Proof.
  unfold getSelector. sends_only;
    try apply sendsOnly_getSelector_walk; try apply sendsOnly_callFunctionOn.
Qed.

Lemma sendsOnly_skip : sendsOnly skip.
Proof. unfold skip. sends_only. Qed.

Lemma sendsOnly_resume : sendsOnly resume.
Proof. unfold resume, skip. sends_only. Qed.

Create HintDb sends.

#[local] Hint Resolve sendsOnly_callFunctionOn sendsOnly_getProperties
  sendsOnly_queryAXTree sendsOnly_isSubmitButton sendsOnly_checkUnique
  sendsOnly_findTargetId sendsOnly_getSelector sendsOnly_send
  sendsOnly_skip sendsOnly_resume : sends.

(* ================================================================== *)
(** ** What a handler leaves alone *)
(* ================================================================== *)

Ltac interaction_line :=
  unfold interactionLine; eexists _, _;
  split; [ reflexivity | split; discriminate ].

Section Frame.

Variable R : Session -> Session -> Prop.
Hypothesis R_refl : forall st, R st st.
Hypothesis R_trans : forall a b c, R a b -> R b c -> R a c.
Hypothesis R_sent : forall st c, R st (set_sent c st).
Hypothesis R_console : forall st c, R st (set_console c st).
Hypothesis R_files : forall st f, R st (set_files f st).
Hypothesis R_line :
  forall line, interactionLine line -> frame R (addLineToPuppeteerScript line).
(** For the handlers of the scroll debounce. *)
Hypothesis R_scroll : forall st b t, R st (set_scroll b t st).
(** For the handlers that finish the session. *)
Hypothesis R_identation : forall st z, R st (set_identation z st).
Hypothesis R_output : forall st o, R st (set_output o st).
Hypothesis R_exit : forall st p d, R st (set_exit p d st).

Lemma frame_ret {A} (a : A) : frame R (ret a).
Proof. intros st. apply R_refl. Qed.

Lemma frame_throw {A} (e : JsError) : frame R (@throw A e).
Proof. intros st. apply R_refl. Qed.

Lemma frame_diverge {A} : frame R (@diverge A).
Proof. intros st. apply R_refl. Qed.

Lemma frame_gets {A} (f : Session -> A) : frame R (gets f).
Proof. intros st. apply R_refl. Qed.

Lemma frame_bind {A B} (m : M A) (k : A -> M B) :
  frame R m -> (forall a, frame R (k a)) -> frame R (bind m k).
Proof.
  intros Hm Hk st. unfold bind.
  specialize (Hm st). destruct (m st) as [[a| e |] st']; simpl in *; auto.
  eapply R_trans; [exact Hm | apply Hk].
Qed.

Lemma frame_sendsOnly {A} (m : M A) : sendsOnly m -> frame R m.
Proof. intros H st. rewrite (H st). apply R_sent. Qed.

Lemma frame_orThrow {A} (e : JsError) (o : option A) : frame R (orThrow e o).
Proof. destruct o; [apply frame_ret | apply frame_throw]. Qed.

Lemma frame_console_log (msg : jsstring) : frame R (console_log msg).
Proof. intros st. apply R_console. Qed.

Local Ltac frame_tac :=
  repeat first
    [ apply frame_ret | apply frame_throw | apply frame_diverge
    | apply frame_gets | apply frame_console_log | apply frame_orThrow
    | apply frame_sendsOnly; solve [ auto with sends ]
    | apply R_line; solve [ interaction_line ]
    | assumption
    | apply frame_bind; [| intros ]
    | match goal with
      | |- frame _ (if ?b then _ else _) => destruct b
      | |- frame _ (match ?x with _ => _ end) => destruct x
      end ].

Lemma frame_skip : frame R skip.
Proof. frame_tac. Qed.

Lemma frame_resume : frame R resume.
Proof. frame_tac. Qed.

Lemma frame_saveDomIfNeeded options w : frame R (saveDomIfNeeded options w).
Proof.
  unfold saveDomIfNeeded. frame_tac.
  intros st. apply R_files.
Qed.

Lemma frame_onDomContentLoaded : frame R onDomContentLoaded.
Proof. unfold onDomContentLoaded. frame_tac. Qed.

Lemma frame_handleClickEvent fuel options w localFrame :
  frame R (handleClickEvent fuel options w localFrame).
Proof.
  unfold handleClickEvent. frame_tac;
    first [ apply frame_skip | apply frame_resume | apply frame_saveDomIfNeeded ].
Qed.

Lemma frame_handleSubmitEvent fuel w localFrame :
  frame R (handleSubmitEvent fuel w localFrame).
Proof. unfold handleSubmitEvent. frame_tac; apply frame_resume. Qed.

Lemma frame_handleChangeEvent fuel w localFrame :
  frame R (handleChangeEvent fuel w localFrame).
Proof. unfold handleChangeEvent. frame_tac; apply frame_resume. Qed.

Lemma frame_onFrameNavigated hasParent frameUrl :
  frame R (onFrameNavigated hasParent frameUrl).
Proof. unfold onFrameNavigated. frame_tac. Qed.

Lemma frame_handleScrollEvent w : frame R (handleScrollEvent w).
Proof.
  unfold handleScrollEvent. frame_tac; try apply frame_resume.
  intros st. apply R_scroll.
Qed.

Lemma frame_onTimerFired w : frame R (onTimerFired w).
Proof.
  unfold onTimerFired, scrollTimerCallback. frame_tac;
    intros st; apply R_scroll.
Qed.

Lemma frame_onPaused fuel options w pausedEvent :
  frame R (handleScrollEvent w) ->
  frame R (onPaused fuel options w pausedEvent).
Proof.
  intros Hscroll. unfold onPaused.
  apply frame_bind; [apply frame_orThrow | intros eventName].
  apply frame_bind; [frame_tac | intros result].
  repeat match goal with
         | |- frame _ (if ?b then _ else _) => destruct b
         end;
    first [ apply frame_handleClickEvent | apply frame_handleSubmitEvent
          | apply frame_handleChangeEvent | apply frame_skip | assumption ].
Qed.






End Frame.

(* ================================================================== *)
(** ** Running a handler *)
(* ================================================================== *)

Lemma bind_returned {A B} (m : M A) (k : A -> M B) st a st' :
  m st = (Returned a, st') -> bind m k st = k a st'.
Proof. intros H. unfold bind. rewrite H. reflexivity. Qed.

Lemma bind_thrown {A B} (m : M A) (k : A -> M B) st e st' :
  m st = (Thrown e, st') -> bind m k st = (Thrown e, st').
Proof. intros H. unfold bind. rewrite H. reflexivity. Qed.

Lemma sendsOnly_run {A} (m : M A) (r : Outcome A) st :
  sendsOnly m -> fst (m initial) = r ->
  m st = (r, set_sent (sent st ++ sent (snd (m initial))) st).
Proof. intros H <-. apply H. Qed.


(** A target found by [findTargetId] costs one more Runtime.getProperties,
    on the event object. *)
Lemma findTargetId_returned w localFrame names target :
  fst (findTargetId w localFrame names initial) = Returned target ->
  exists event,
    sent (snd (findTargetId w localFrame names initial))
    = [Runtime_getProperties (Some event)].
Proof.
  unfold findTargetId.
  destruct (findEvent names localFrame) as [e | [ev |]]; try discriminate.
  destruct (ro_objectId ev) as [event|] eqn:Hev.
  - intros _. exists event.
    unfold bind, Runtime_getProperties_, send, modify, ret, orThrow, throw.
    cbn.
    destruct (find _ (getProperties w event)) as [t|]; cbn;
      [destruct (pd_value t); cbn |]; reflexivity.
  - unfold bind, Runtime_getProperties_, send, modify, throw. cbn. discriminate.
Qed.

(** *** Emitting a line *)

Lemma concat_two_spaces (n : nat) :
  List.concat (List.repeat (lit "  ") n) = spaces (2 * n).
Proof.
  induction n as [|n IH]; [reflexivity|].
  replace (2 * S n)%nat with (S (S (2 * n))) by lia.
  simpl List.repeat. simpl List.concat. rewrite IH. reflexivity.
Qed.

Lemma repeat_two_spaces (z : Z) :
  (0 <= z)%Z -> JS.repeat (lit "  ") z = inr (spaces (2 * Z.to_nat z)).
Proof.
  intros H. unfold JS.repeat.
  destruct (Z.ltb_spec z 0); [lia|].
  rewrite concat_two_spaces. reflexivity.
Qed.

Lemma addLine_emits (line : jsstring) (st : Session) :
  (0 <= identation st)%Z ->
  addLineToPuppeteerScript line st
  = (Returned tt, set_output (output st ++ [lineAt (identation st) line]) st).
Proof.
  intros H. unfold addLineToPuppeteerScript, bind, gets.
  rewrite repeat_two_spaces by exact H. reflexivity.
Qed.

Lemma addLine_throws (line : jsstring) (st : Session) :
  (identation st < 0)%Z ->
  addLineToPuppeteerScript line st = (Thrown RangeError, st).
Proof.
  intros H. unfold addLineToPuppeteerScript, bind, gets, JS.repeat.
  destruct (Z.ltb_spec (identation st) 0); [reflexivity | lia].
Qed.

(* ================================================================== *)
(** ** The specification, statement by statement *)
(* ================================================================== *)


Example url_httpfoo :
  normalizeUrl (lit "httpfoo") = lit "httpfoo" /\
  normalizeUrl (lit "example.com") = lit "https://example.com".
Proof. split; reflexivity. Qed.

(** C8 (as amended). A pause whose event name is none of [listener:click],
    [listener:submit], [listener:change] and [listener:scroll] emits
    nothing and is ended by [skip]: after reading the local scope, the only
    command sent is one plain Debugger.resume, with no Debugger.setSkipAllPauses
    around it. *)
Theorem unrecognized_pause_is_skipped
    (fuel : nat) (options : RecorderOptions) (w : World)
    (pausedEvent : PausedEvent) (eventName : option jsstring)
    (scope : jsstring) (st : Session) :
  pe_data pausedEvent = Some eventName ->
  pe_localFrame pausedEvent = Some scope ->
  eventName <> Some (lit "listener:click") ->
  eventName <> Some (lit "listener:submit") ->
  eventName <> Some (lit "listener:change") ->
  eventName <> Some (lit "listener:scroll") ->
  onPaused fuel options w pausedEvent st
  = (Returned tt,
     set_sent (sent st ++ [Runtime_getProperties (Some scope);
                           Debugger_resume false]) st).
Proof.
  intros Hd Hf Hc Hs Hg Hl.
  assert (Hno : forall s, eventName <> Some (lit s) -> isEvent eventName s = false).
  { intros s Hne. unfold isEvent. destruct eventName as [e|]; [|reflexivity].
    destruct (JS.eqb e (lit s)) eqn:E; [|reflexivity].
    apply eqb_eq in E. subst e. congruence. }
  unfold onPaused. rewrite Hd, Hf.
  unfold bind, orThrow, ret, Runtime_getProperties_, send, modify.
  cbv beta iota.
  rewrite (Hno _ Hc), (Hno _ Hs), (Hno _ Hg), (Hno _ Hl).
  unfold skip, send, modify.
  destruct st; unfold set_sent; cbn. rewrite <- app_assoc. reflexivity.
Qed.

Lemma unrecognized_pause_witness :
  onPaused 0 options0 (world formPage (lit "KeyboardEvent") 2 None)
           (paused "listener:keydown") initial
  = (Returned tt,
     set_sent [Runtime_getProperties (Some (lit "scope")); Debugger_resume false]
              initial).
Proof.
  apply (unrecognized_pause_is_skipped 0 options0
           (world formPage (lit "KeyboardEvent") 2 None)
           (paused "listener:keydown") (Some (lit "listener:keydown"))
           (lit "scope") initial);
    first [ reflexivity | discriminate ].
Defined.

(** C8 (as stated) fails: on a [listener:keydown] pause the handler does not
    do what [resume] does; no Debugger.setSkipAllPauses is sent at all. *)
Lemma unrecognized_pause_not_resumed :
  let w := world formPage (lit "KeyboardEvent") 2 None in
  let st := snd (onPaused 0 options0 w (paused "listener:keydown") initial) in
  sent st = [Runtime_getProperties (Some (lit "scope")); Debugger_resume false]
  /\ sent (snd ((Runtime_getProperties_ w (Some (lit "scope")) ;; resume) initial))
     = [Runtime_getProperties (Some (lit "scope"));
        Debugger_setSkipAllPauses true; Debugger_resume false;
        Debugger_setSkipAllPauses false]
  /\ ~ In (Debugger_setSkipAllPauses true) (sent st).
Proof.
  cbv zeta. repeat split.
  intros [H | [H | []]]; discriminate.
Qed.

(** The effect of [handleSubmitEvent] when a selector is found. *)
Lemma handleSubmitEvent_emits fuel w localFrame target selector st :
  fst (findTargetId w localFrame [lit "SubmitEvent"] initial) = Returned target ->
  fst (getSelector fuel w target initial) = Returned selector ->
  truthy selector = true ->
  (0 <= identation st)%Z ->
  exists cmds,
    handleSubmitEvent fuel w localFrame st
    = (Returned tt,
       set_sent (sent st ++ cmds)
         (set_output
            (output st ++
               [lineAt (identation st)
                  (lit "await submit(" ++ interpolate (escapeSelector selector)
                     ++ lit ");")]) st)).
Proof.
  intros Ht Hs Htr Hi. unfold handleSubmitEvent.
  eexists.
  rewrite (bind_returned _ _ _ _ _
             (sendsOnly_run _ _ st (sendsOnly_findTargetId _ _ _) Ht)).
  rewrite (bind_returned _ _ _ _ _
             (sendsOnly_run _ _ _ (sendsOnly_getSelector _ _ _) Hs)).
  rewrite Htr.
  erewrite bind_returned by (apply addLine_emits; exact Hi).
  rewrite (sendsOnly_resume _).
  f_equal. destruct st; unfold set_sent, set_output; cbn.
  rewrite <- !app_assoc. reflexivity.
Qed.

(** C4. A paused click whose target is a submit control is ended by [skip]
    with nothing emitted: beyond finding the target and asking whether it
    is a submit button the handler sends one Debugger.resume, so no
    accessibility query, no CSS path and no DOM snapshot is made, and the
    session is otherwise untouched. The submit pause that follows emits
    the one line of the action, [await submit(<selector>);]. *)
Theorem click_on_submit_control_is_skipped
    (fuel : nat) (options : RecorderOptions) (st : Session)
    (w : World) (click : PausedEvent) (scope target : jsstring)
    (w' : World) (submit : PausedEvent) (scope' : jsstring)
    (form : option jsstring) (selector : JsValue) :
  pe_data click = Some (Some (lit "listener:click")) ->
  pe_localFrame click = Some scope ->
  fst (findTargetId w (getProperties w scope)
         [lit "MouseEvent"; lit "PointerEvent"] initial) = Returned (Some target) ->
  truthy (ro_value (callFunctionOn w helpers_isSubmitButton target)) = true ->
  pe_data submit = Some (Some (lit "listener:submit")) ->
  pe_localFrame submit = Some scope' ->
  fst (findTargetId w' (getProperties w' scope') [lit "SubmitEvent"] initial)
  = Returned form ->
  fst (getSelector fuel w' form initial) = Returned selector ->
  truthy selector = true ->
  (0 <= identation st)%Z ->
  (exists event,
     onPaused fuel options w click st
     = (Returned tt,
        set_sent (sent st ++ [Runtime_getProperties (Some scope);
                              Runtime_getProperties (Some event);
                              Runtime_callFunctionOn helpers_isSubmitButton (Some target);
                              Debugger_resume false]) st))
  /\ output (snd (onPaused fuel options w' submit
                    (snd (onPaused fuel options w click st))))
     = output st ++
         [lineAt (identation st)
            (lit "await submit(" ++ interpolate (escapeSelector selector)
               ++ lit ");")].
Proof.
  intros Hd Hf Ht Hs Hd' Hf' Ht' Hsel Htr Hi.
  destruct (findTargetId_returned _ _ _ _ Ht) as [event Hev].
  assert (Hclick :
    onPaused fuel options w click st
    = (Returned tt,
       set_sent (sent st ++ [Runtime_getProperties (Some scope);
                             Runtime_getProperties (Some event);
                             Runtime_callFunctionOn helpers_isSubmitButton (Some target);
                             Debugger_resume false]) st)).
  { unfold onPaused. rewrite Hd, Hf.
    unfold bind at 1, orThrow, ret. 
    unfold bind at 1, Runtime_getProperties_ at 1, bind at 1, send at 1,
      modify at 1, ret at 1.
    cbv beta iota.
    change (isEvent (Some (lit "listener:click")) "listener:click") with true.
    cbv beta iota. unfold handleClickEvent.
    rewrite (bind_returned _ _ _ _ _
               (sendsOnly_run _ _ _ (sendsOnly_findTargetId _ _ _) Ht)).
    rewrite Hev.
    unfold isSubmitButton, Runtime_callFunctionOn_, bind, send, modify, ret.
    cbv beta iota. rewrite Hs. unfold skip, send, modify.
    destruct st; unfold set_sent; cbn. rewrite <- !app_assoc. reflexivity. }
  split; [exists event; exact Hclick|].
  rewrite Hclick. cbn [snd].
  unfold onPaused. rewrite Hd', Hf'.
  unfold bind at 1, orThrow, ret.
  unfold bind at 1, Runtime_getProperties_ at 1, bind at 1, send at 1,
    modify at 1, ret at 1.
  cbv beta iota.
  change (isEvent (Some (lit "listener:submit")) "listener:click") with false.
  change (isEvent (Some (lit "listener:submit")) "listener:submit") with true.
  cbv beta iota.
  match goal with
  | |- output (snd (handleSubmitEvent _ _ _ ?s)) = _ =>
      destruct (handleSubmitEvent_emits fuel w' (getProperties w' scope') form
                  selector s Ht' Hsel Htr) as [cmds Hsub]
  end.
  - destruct st; exact Hi.
  - rewrite Hsub. destruct st; reflexivity.
Qed.

Lemma click_on_submit_control_witness :
  let w := world formPage (lit "MouseEvent") 3 None in
  let w' := world formPage (lit "SubmitEvent") 1 None in
  let st := started (lit "example.com") options0 in
  (exists event,
     onPaused 5 options0 w (paused "listener:click") st
     = (Returned tt,
        set_sent (sent st ++ [Runtime_getProperties (Some (lit "scope"));
                              Runtime_getProperties (Some event);
                              Runtime_callFunctionOn helpers_isSubmitButton
                                (Some (objectIdOf 3));
                              Debugger_resume false]) st))
  /\ output (snd (onPaused 5 options0 w' (paused "listener:submit")
                    (snd (onPaused 5 options0 w (paused "listener:click") st))))
     = output st ++
         [lineAt 1 (lit "await submit(" ++ quoteJSONString (lit "#e1") ++ lit ");")].
Proof.
  cbv zeta.
  apply (click_on_submit_control_is_skipped 5 options0
           (started (lit "example.com") options0)
           (world formPage (lit "MouseEvent") 3 None)
           (paused "listener:click") (lit "scope") (objectIdOf 3)
           (world formPage (lit "SubmitEvent") 1 None)
           (paused "listener:submit") (lit "scope")
           (Some (objectIdOf 1)) (VStr (lit "#e1")));
    first [ reflexivity | vm_compute; discriminate ].
Defined.

(* ================================================================== *)
(** ** Invariants of the event loop *)
(* ================================================================== *)








(* ================================================================== *)
(** ** The selector resolver *)
(* ================================================================== *)

Lemma remaining_In w candidate name role n :
  In n (remaining w candidate name role) <->
  In n (queryAXTree w (byDocument w name role)) /\
  ~ exists c, In c candidate /\ backendDOMNodeId c = backendDOMNodeId n.
Proof.
  unfold remaining. rewrite filter_In, negb_true_iff.
  assert (H : ignoredIds_has candidate (backendDOMNodeId n) = true <->
              exists c, In c candidate /\ backendDOMNodeId c = backendDOMNodeId n).
  { unfold ignoredIds_has. rewrite existsb_exists.
    split; intros [c [Hc He]]; exists c; split; auto.
    - destruct (backendDOMNodeId c), (backendDOMNodeId n); simpl in He;
        try discriminate; try reflexivity.
      apply N.eqb_eq in He. congruence.
    - rewrite He. destruct (backendDOMNodeId n); simpl; auto. apply N.eqb_refl. }
  split; intros [H1 H2]; split; auto.
  - intros Hex. apply H in Hex. congruence.
  - destruct (ignoredIds_has candidate (backendDOMNodeId n)); auto.
    exfalso. apply H2, H. reflexivity.
Qed.

Lemma checkUnique_run w ignored name role st :
  checkUnique w ignored name role st
  = (Returned (List.length (remaining w ignored name role) <? 2)%nat,
     set_sent (sent st ++ [DOM_getDocument 0 false;
                           Accessibility_queryAXTree (byDocument w name role)]) st).
Proof.
  unfold checkUnique, Accessibility_queryAXTree_, bind, send, modify, ret.
  destruct st; unfold set_sent; cbn. rewrite <- !app_assoc. reflexivity.
Qed.

Lemma walk_query fuel w cur prev st :
  nonEmpty cur = true ->
  getSelector_walk (S fuel) w (Some cur) prev st
  = match queryAXTree w (byObject (Some cur)) with
    | [] => ret None
    | axNode :: rest =>
        (name <- orThrow TypeError (ax_name axNode) ;;
         role <- orThrow TypeError (ax_role axNode) ;;
         if negb (includes name prev) then ret None
         else
           uniqueName <- checkUnique w (axNode :: rest) (Some name) None ;;
           if nonEmpty name && uniqueName then ret (Some (VStr (ariaName name)))
           else
             uniqueNameRole <- checkUnique w (axNode :: rest) (Some name) (Some role) ;;
             if nonEmpty name && nonEmpty role && uniqueNameRole then
               ret (Some (VStr (ariaNameRole name role)))
             else
               result <- Runtime_callFunctionOn_ w helpers_getParent (Some cur) ;;
               getSelector_walk fuel w (ro_objectId result) name)
    end (set_sent (sent st ++ [Accessibility_queryAXTree (byObject (Some cur))]) st).
Proof.
  intros Hc. cbn [getSelector_walk idTruthy]. rewrite Hc.
  unfold bind at 1, Accessibility_queryAXTree_ at 1, bind at 1, send at 1,
    modify at 1, ret at 1.
  cbv beta iota. fold (byObject (Some cur)).
  destruct (queryAXTree w (byObject (Some cur))); reflexivity.
Qed.

Lemma walk_iteration fuel w cur prev axNode rest name role st :
  nonEmpty cur = true ->
  queryAXTree w (byObject (Some cur)) = axNode :: rest ->
  ax_name axNode = Some name ->
  ax_role axNode = Some role ->
  includes name prev = true ->
  nonEmpty name
    && (List.length (remaining w (axNode :: rest) (Some name) None) <? 2)%nat
  = false ->
  nonEmpty name && nonEmpty role
    && (List.length (remaining w (axNode :: rest) (Some name) (Some role)) <? 2)%nat
  = false ->
  getSelector_walk (S fuel) w (Some cur) prev st
  = getSelector_walk fuel w (ro_objectId (callFunctionOn w helpers_getParent cur)) name
      (set_sent (sent st ++ iterationCommands w cur name role) st).
Proof.
  intros Hc Hq Hn Hr Hi Hu1 Hu2.
  rewrite walk_query by exact Hc. rewrite Hq, Hn, Hr.
  unfold orThrow. unfold bind at 1, ret at 1. unfold bind at 1, ret at 1.
  rewrite Hi. cbn [negb].
  unfold bind at 1. rewrite checkUnique_run, Hu1.
  unfold bind at 1. rewrite checkUnique_run, Hu2.
  unfold bind at 1, Runtime_callFunctionOn_, bind at 1, send, modify, ret.
  f_equal. destruct st; unfold set_sent, iterationCommands; cbn.
  rewrite <- !app_assoc. reflexivity.
Qed.

(** A walk that reaches an iteration continues from it as if started there. *)
Lemma walk_reaches w objectId k cur prev :
  Reaches w objectId k cur prev ->
  forall fuel st, exists cmds,
    getSelector_walk (k + fuel) w objectId [] st
    = getSelector_walk fuel w cur prev (set_sent (sent st ++ cmds) st).
Proof.
  induction 1 as [| k cur prev axNode rest name role Hreach IH Hc Hq Hn Hr Hi Hu1 Hu2];
    intros fuel st.
  - exists []. rewrite set_sent_nil. reflexivity.
  - destruct (IH (S fuel) st) as [cmds Hw].
    exists (cmds ++ iterationCommands w cur name role).
    replace (S k + fuel)%nat with (k + S fuel)%nat by lia.
    rewrite Hw.
    rewrite (walk_iteration fuel w cur prev axNode rest name role _ Hc Hq Hn Hr Hi Hu1 Hu2).
    rewrite set_sent_twice. reflexivity.
Qed.



(** C3. When the walk comes to a node whose name does not contain the name of
    the previous iteration, the accessibility walk is over: right after the
    query for that node the resolver asks for the CSS path of the original
    target and returns it. *)
Theorem substring_guard_abandons_walk
    (w : World) (target cur prev : jsstring) (k fuel : nat)
    (axNode : AXNode) (rest : list AXNode) (name role : jsstring)
    (st : Session) :
  Reaches w (Some target) k (Some cur) prev ->
  nonEmpty cur = true ->
  queryAXTree w (byObject (Some cur)) = axNode :: rest ->
  ax_name axNode = Some name ->
  ax_role axNode = Some role ->
  includes name prev = false ->
  (k < fuel)%nat ->
  exists cmds,
    getSelector fuel w (Some target) st
    = (Returned (ro_value (callFunctionOn w helpers_cssPath target)),
       set_sent (sent st ++ cmds ++
                   [Accessibility_queryAXTree (byObject (Some cur));
                    Runtime_callFunctionOn helpers_cssPath (Some target)]) st).
Proof.
  intros Hreach Hc Hq Hn Hr Hi Hfuel.
  destruct (walk_reaches w (Some target) k (Some cur) prev Hreach
              (S (fuel - k - 1)) st) as [cmds Hw].
  replace (k + S (fuel - k - 1))%nat with fuel in Hw by lia.
  exists cmds. unfold getSelector.
  erewrite bind_returned.
  2:{ rewrite Hw. rewrite walk_query by exact Hc. rewrite Hq, Hn, Hr.
      unfold orThrow. unfold bind at 1, ret at 1. unfold bind at 1, ret at 1.
      rewrite Hi. cbn [negb]. reflexivity. }
  unfold Runtime_callFunctionOn_, bind, send, modify, ret.
  f_equal. destruct st; unfold set_sent; cbn. rewrite <- !app_assoc. reflexivity.
Qed.


Lemma substring_guard_witness :
  exists cmds,
    getSelector 5 (world toolbarPage (lit "MouseEvent") 3 None)
      (Some (objectIdOf 3)) initial
    = (Returned (VStr (lit "#e3")),
       set_sent (cmds ++ [Accessibility_queryAXTree (byObject (Some (objectIdOf 1)));
                          Runtime_callFunctionOn helpers_cssPath (Some (objectIdOf 3))])
                initial).
Proof.
  pose (w := world toolbarPage (lit "MouseEvent") 3 None).
  assert (H1 : Reaches w (Some (objectIdOf 3)) 1 (Some (objectIdOf 2)) (lit "Save")).
  { exact (Reaches_parent w (Some (objectIdOf 3)) 0 (objectIdOf 3) []
             (axOf (element 3 (Some 2%N) "Save" "button")) []
             (lit "Save") (lit "button")
             (Reaches_target _ _) eq_refl eq_refl eq_refl eq_refl eq_refl
             eq_refl eq_refl). }
  assert (H2 : Reaches w (Some (objectIdOf 3)) 2 (Some (objectIdOf 1))
                 (lit "Save draft")).
  { exact (Reaches_parent w (Some (objectIdOf 3)) 1 (objectIdOf 2) (lit "Save")
             (axOf (element 2 (Some 1%N) "Save draft" "group"))
             [axOf (element 3 (Some 2%N) "Save" "button")]
             (lit "Save draft") (lit "group")
             H1 eq_refl eq_refl eq_refl eq_refl eq_refl eq_refl eq_refl). }
  apply (substring_guard_abandons_walk w (objectIdOf 3) (objectIdOf 1)
           (lit "Save draft") 2 5
           (axOf (element 1 None "Toolbar" "toolbar"))
           (map axOf (tl toolbarPage))
           (lit "Toolbar") (lit "toolbar") initial H2);
    first [ reflexivity | vm_compute; lia ].
Defined.

(* ================================================================== *)
(** ** Finishing the session *)
(* ================================================================== *)

Lemma extendsBody_refl st : extendsBody st st.
Proof.
  repeat split. exists []. rewrite app_nil_r. split; [reflexivity | constructor].
Qed.

Lemma extendsBody_trans a b c :
  extendsBody a b -> extendsBody b c -> extendsBody a c.
Proof.
  intros (Hi & He & Hp & l & Ho & Hl) (Hi' & He' & Hp' & l' & Ho' & Hl').
  repeat split; try congruence.
  exists (l ++ l'). split; [rewrite Ho', Ho, app_assoc; reflexivity|].
  apply Forall_app; auto.
Qed.

Lemma spaces_head n : n = O \/ exists l, spaces n = 32%N :: l.
Proof. destruct n; [left; reflexivity | right; eexists; reflexivity]. Qed.

Lemma bodyChunk_lineAt level line : interactionLine line -> bodyChunk (lineAt level line).
Proof.
  intros (c & rest & -> & Hs & Hb). unfold lineAt.
  destruct (spaces_head (2 * Z.to_nat level)) as [-> | [l ->]].
  - exists c, (rest ++ [10%N]). split; [reflexivity | exact Hb].
  - exists 32%N, ((l ++ c :: rest) ++ [10%N]). split; [reflexivity | discriminate].
Qed.

Lemma extendsBody_line line :
  interactionLine line -> frame extendsBody (addLineToPuppeteerScript line).
Proof.
  intros Hl st.
  destruct (Z.ltb_spec (identation st) 0) as [Hneg | Hpos].
  - rewrite addLine_throws by exact Hneg. apply extendsBody_refl.
  - rewrite addLine_emits by exact Hpos. repeat split.
    exists [lineAt (identation st) line]. split; [reflexivity|].
    constructor; [apply bodyChunk_lineAt; exact Hl | constructor].
Qed.

Lemma extendsBody_handle fuel options ev :
  isTrigger ev = false -> ev <> BrowserClosed ->
  frame extendsBody (handle fuel options ev).
Proof.
  intros Ht Hb.
  assert (Hsent : forall st c, extendsBody st (set_sent c st))
    by (intros; apply (extendsBody_refl st)).
  assert (Hconsole : forall st c, extendsBody st (set_console c st))
    by (intros; apply (extendsBody_refl st)).
  assert (Hfiles : forall st f, extendsBody st (set_files f st))
    by (intros; apply (extendsBody_refl st)).
  assert (Hscroll : forall st b t, extendsBody st (set_scroll b t st))
    by (intros; apply (extendsBody_refl st)).
  pose proof extendsBody_refl as Hrefl.
  pose proof extendsBody_trans as Htrans.
  pose proof extendsBody_line as Hline.
  destruct ev as [| w pausedEvent | w | hasParent frameUrl | | |];
    try discriminate; try congruence; simpl handle.
  - apply frame_onDomContentLoaded; assumption.
  - apply frame_onPaused; try assumption.
    apply frame_handleScrollEvent; assumption.
  - apply frame_onTimerFired; assumption.
  - apply frame_onFrameNavigated; assumption.
Qed.

Lemma bodyChunk_not_end c : bodyChunk c -> c <> EndOfStream /\ c <> lineAt 0 closeLine.
Proof.
  intros (ch & l & -> & Hb). split; [discriminate|].
  intros H. inversion H. congruence.
Qed.

Lemma close_first options st :
  identation st = 1%Z ->
  exists cmds,
    close options st
    = (Returned tt,
       set_sent (sent st ++ cmds)
         (set_output (output st ++ [lineAt 0 closeLine; EndOfStream])
            (set_identation 0 st))).
Proof.
  intros Hi. unfold close.
  unfold bind at 1, modify at 1. rewrite Hi.
  erewrite bind_returned by (apply addLine_emits; cbn; lia).
  unfold bind at 1, push at 1, modify at 1.
  destruct (hasEndpoint options); cbn [negb].
  - exists []. unfold ret. destruct st; unfold set_sent, set_output; cbn.
    rewrite app_nil_r, <- app_assoc. reflexivity.
  - exists [Browser_close]. unfold send, modify.
    destruct st; unfold set_sent, set_output; cbn.
    rewrite <- app_assoc. reflexivity.
Qed.

Lemma close_again options st :
  (identation st <= 0)%Z ->
  close options st = (Thrown RangeError, set_identation (identation st - 1) st).
Proof.
  intros Hi. unfold close.
  unfold bind at 1, modify at 1.
  erewrite bind_thrown by (apply addLine_throws; cbn; lia).
  reflexivity.
Qed.

Lemma onBrowserClosed_keeps st :
  identation (snd (onBrowserClosed st)) = identation st /\
  output (snd (onBrowserClosed st)) = output st.
Proof.
  unfold onBrowserClosed, process_exit, bind, gets, send, modify, ret.
  cbv beta iota.
  destruct (exitPending st); split; reflexivity.
Qed.

Lemma step_recording_other fuel options st ev :
  recording st -> isTrigger ev = false -> recording (step fuel options st ev).
Proof.
  intros (Hi & He & Hp & Ho) Ht. unfold step. rewrite He.
  destruct (Event_BrowserClosed_dec ev) as [-> | Hne].
  - simpl handle. unfold onBrowserClosed, bind, gets. cbv beta iota. rewrite Hp.
    repeat split; assumption.
  - destruct (extendsBody_handle fuel options ev Ht Hne st)
      as (Hi' & He' & Hp' & added & Ho' & Ha).
    repeat split; try congruence.
    rewrite Ho'. apply Forall_app; auto.
Qed.

Lemma step_recording_trigger fuel options st ev :
  recording st -> isTrigger ev = true -> finished (step fuel options st ev).
Proof.
  intros (Hi & He & Hp & Ho) Ht. unfold step. rewrite He.
  destruct (close_first options st Hi) as [cmds Hc].
  assert (Hfin : forall s,
            identation s = 0%Z ->
            output s = output st ++ [lineAt 0 closeLine; EndOfStream] ->
            finished s).
  { intros s Hs Hout. split; [lia|].
    exists (output st), []. rewrite app_nil_r. repeat split; auto. }
  destruct ev; try discriminate; simpl handle.
  - rewrite Hc. apply Hfin; reflexivity.
  - unfold onSigint. rewrite (bind_returned _ _ _ _ _ Hc).
    destruct (hasEndpoint options); apply Hfin; reflexivity.
Qed.

Lemma step_finished fuel options st ev :
  finished st -> finished (step fuel options st ev).
Proof.
  intros Hfin. unfold step. destruct (exited st); [exact Hfin|].
  destruct Hfin as (Hi & pre & post & Ho & Hpre & Hpost).
  assert (Hkeep : forall s, (identation s <= identation st)%Z ->
                            output s = output st -> finished s).
  { intros s Hs Hout. split; [lia|]. exists pre, post. rewrite Hout. auto. }
  destruct (isTrigger ev) eqn:Ht.
  - destruct ev; try discriminate; simpl handle.
    + rewrite close_again by exact Hi. apply Hkeep; cbn; [lia | reflexivity].
    + unfold onSigint. rewrite (bind_thrown _ _ _ _ _ (close_again options st Hi)).
      apply Hkeep; cbn; [lia | reflexivity].
  - destruct (Event_BrowserClosed_dec ev) as [-> | Hne].
    + simpl handle. destruct (onBrowserClosed_keeps st) as [H1 H2].
      apply Hkeep; [lia | exact H2].
    + destruct (extendsBody_handle fuel options ev Ht Hne st)
        as (Hi' & _ & _ & added & Ho' & Ha).
      split; [lia|]. exists pre, (post ++ added).
      rewrite Ho', Ho. rewrite <- !app_assoc. repeat split; auto.
      apply Forall_app; auto.
Qed.

Lemma run_finished fuel options evs :
  forall st, finished st -> finished (run fuel options st evs).
Proof.
  induction evs as [|ev evs IH]; intros st H; [exact H|].
  simpl. apply IH, step_finished, H.
Qed.

Lemma run_recording fuel options evs :
  forall st, recording st ->
    existsb isTrigger evs = true -> finished (run fuel options st evs).
Proof.
  induction evs as [|ev evs IH]; intros st Hrec Hex; [discriminate|].
  simpl in *. destruct (isTrigger ev) eqn:Ht.
  - apply run_finished, step_recording_trigger; assumption.
  - apply IH; [apply step_recording_other; assumption | exact Hex].
Qed.

Lemma started_recording url options : recording (started url options).
Proof.
  unfold started, start, getBrowserInstance.
  assert (Hbody : forall next, Forall bodyChunk
            [lineAt 0 requireLine; lineAt 0 (openLine next)]).
  { intros next.
    constructor; [|constructor; [|constructor]];
      eexists _, _; (split; [reflexivity | discriminate]). }
  destruct (wsEndpoint options) as [[|c s]|]; cbn;
    (split; [reflexivity | split; [reflexivity | split; [reflexivity|]]]);
    apply Hbody.
Qed.

Lemma filter_end_body l : Forall bodyChunk l -> filter isEndOfStream l = [].
Proof.
  induction 1 as [|c l (ch & t & -> & _) _ IH]; [reflexivity|]. simpl. exact IH.
Qed.

(** C9. Once a page close or an interrupt has arrived, whatever else happens
    and however often either arrives again, the output has received the
    end-of-stream marker exactly once, right after the one closing line
    [});] of the skeleton. *)
Theorem end_of_stream_pushed_once
    (fuel : nat) (options : RecorderOptions) (url : jsstring)
    (evs : list Event) :
  In PageClose evs \/ In Sigint evs ->
  let out := output (run fuel options (started url options) evs) in
  List.length (filter isEndOfStream out) = 1%nat /\
  exists pre post,
    out = pre ++ [lineAt 0 closeLine; EndOfStream] ++ post /\
    ~ In EndOfStream pre /\ ~ In EndOfStream post /\
    ~ In (lineAt 0 closeLine) pre /\ ~ In (lineAt 0 closeLine) post.
Proof.
  intros Htrig out.
  assert (Hex : existsb isTrigger evs = true).
  { apply existsb_exists. destruct Htrig as [H | H];
      [exists PageClose | exists Sigint]; split; auto. }
  destruct (run_recording fuel options evs _ (started_recording url options) Hex)
    as (_ & pre & post & Ho & Hpre & Hpost).
  fold out in Ho.
  assert (Hnot : forall l c, Forall bodyChunk l -> In c l ->
                   c <> EndOfStream /\ c <> lineAt 0 closeLine).
  { intros l c Hl Hc. rewrite Forall_forall in Hl.
    apply bodyChunk_not_end, Hl, Hc. }
  split.
  - rewrite Ho, !filter_app, (filter_end_body _ Hpre), (filter_end_body _ Hpost).
    reflexivity.
  - exists pre, post. split; [exact Ho|].
    repeat split; intros Hin;
      first [ destruct (Hnot _ _ Hpre Hin) as [H1 H2]
            | destruct (Hnot _ _ Hpost Hin) as [H1 H2] ]; congruence.
Qed.

Lemma end_of_stream_witness :
  let out := output (run 1 attached (started (lit "example.com") attached)
                       [FrameNavigated false (lit "https://example.com/");
                        PageClose; Sigint; Sigint]) in
  List.length (filter isEndOfStream out) = 1%nat /\
  exists pre post,
    out = pre ++ [lineAt 0 closeLine; EndOfStream] ++ post /\
    ~ In EndOfStream pre /\ ~ In EndOfStream post /\
    ~ In (lineAt 0 closeLine) pre /\ ~ In (lineAt 0 closeLine) post.
Proof.
  apply (end_of_stream_pushed_once 1 attached (lit "example.com")
           [FrameNavigated false (lit "https://example.com/");
            PageClose; Sigint; Sigint]).
  left. simpl. auto.
Defined.

(* ================================================================== *)
(** ** Where the recorder falls short of its specification *)
(* ================================================================== *)

(** C2. On a change event whose target has no selector, [handleChangeEvent]
    logs nothing and emits [await type(null, <value>);]. *)
Lemma change_without_selector_still_emits :
  let w := world formPage (lit "Event") 2 None in
  let st := started (lit "example.com") options0 in
  let st' := snd (onPaused 5 options0 w (paused "listener:change") st) in
  fst (getSelector 5 w (Some (objectIdOf 2)) st) = Returned VNull
  /\ fst (onPaused 5 options0 w (paused "listener:change") st) = Returned tt
  /\ output st'
     = output st ++
         [lineAt 1 (lit "await type(null, " ++ quoteJSONString (lit "O'Brien")
                      ++ lit ");")]
  /\ console st' = [].
Proof. cbv zeta. repeat split. Qed.

(** C5. The url of the [open(...)] line is put between single quotes as it is:
    for [http://a'b] the literal that starts at the quote ends at the
    apostrophe of the url and reads back as [http://a]. *)
Lemma open_line_url_not_escaped :
  let url := lit "http://a'b" in
  output (started url options0)
  = [lineAt 0 requireLine;
     Data (lit "open('http://a'b', {}, async (page) => {" ++ [10%N])]
  /\ stringLiteral (skipn 5 (openLine (normalizeUrl url)))
     = Some (lit "http://a", lit "b', {}, async (page) => {")
  /\ lit "http://a" <> url.
Proof. cbv zeta. repeat split. discriminate. Qed.

(** C7. A page close followed by an interrupt runs [close()] twice: the
    indentation, raised once by [start], is lowered twice and ends at -1,
    where the second [close()] throws a RangeError before [process.exit()]
    is reached. *)
Lemma second_close_lowers_indentation_again :
  let st := started (lit "example.com") attached in
  let st1 := run 1 attached st [PageClose] in
  let st2 := run 1 attached st [PageClose; Sigint] in
  identation st = 1%Z /\ identation st1 = 0%Z /\ identation st2 = (-1)%Z
  /\ fst (handle 1 attached Sigint st1) = Thrown RangeError
  /\ exited st2 = false.
Proof. cbv zeta. repeat split. Qed.

(* ================================================================== *)
(** ** Further properties of the emitted script *)
(* ================================================================== *)

Lemma extendsAtDepthOne_refl st : extendsAtDepthOne st st.
Proof.
  intros Hi. repeat split; auto. exists []. simpl. rewrite app_nil_r. reflexivity.
Qed.

Lemma extendsAtDepthOne_trans a b c :
  extendsAtDepthOne a b -> extendsAtDepthOne b c -> extendsAtDepthOne a c.
Proof.
  intros Hab Hbc Hi.
  destruct (Hab Hi) as (Hi' & He & Hp & l & Ho).
  destruct (Hbc Hi') as (Hi'' & He' & Hp' & l' & Ho').
  repeat split; try congruence.
  exists (l ++ l'). rewrite Ho', Ho, map_app, app_assoc. reflexivity.
Qed.

Lemma extendsAtDepthOne_line line :
  frame extendsAtDepthOne (addLineToPuppeteerScript line).
Proof.
  intros st Hi. rewrite addLine_emits by lia. rewrite Hi.
  repeat split; auto. exists [line]. reflexivity.
Qed.

Lemma extendsAtDepthOne_handle fuel options ev :
  isTrigger ev = false -> ev <> BrowserClosed ->
  frame extendsAtDepthOne (handle fuel options ev).
Proof.
  intros Ht Hb.
  assert (Hsent : forall st c, extendsAtDepthOne st (set_sent c st))
    by (intros; apply (extendsAtDepthOne_refl st)).
  assert (Hconsole : forall st c, extendsAtDepthOne st (set_console c st))
    by (intros; apply (extendsAtDepthOne_refl st)).
  assert (Hfiles : forall st f, extendsAtDepthOne st (set_files f st))
    by (intros; apply (extendsAtDepthOne_refl st)).
  assert (Hscroll : forall st b t, extendsAtDepthOne st (set_scroll b t st))
    by (intros; apply (extendsAtDepthOne_refl st)).
  assert (Hline : forall line, interactionLine line ->
                    frame extendsAtDepthOne (addLineToPuppeteerScript line))
    by (intros line _; apply extendsAtDepthOne_line).
  pose proof extendsAtDepthOne_refl as Hrefl.
  pose proof extendsAtDepthOne_trans as Htrans.
  destruct ev as [| w pausedEvent | w | hasParent frameUrl | | |];
    try discriminate; try congruence; simpl handle.
  - apply frame_onDomContentLoaded; assumption.
  - apply frame_onPaused; try assumption.
    apply frame_handleScrollEvent; assumption.
  - apply frame_onTimerFired; assumption.
  - apply frame_onFrameNavigated; assumption.
Qed.

Lemma run_at_depth_one fuel options evs :
  existsb isTrigger evs = false ->
  forall st, recording st ->
    recording (run fuel options st evs) /\
    exists lines,
      output (run fuel options st evs) = output st ++ map (lineAt 1) lines.
Proof.
  induction evs as [|ev evs IH]; intros Hno st Hrec.
  - split; [exact Hrec|]. exists []. simpl. rewrite app_nil_r. reflexivity.
  - simpl in Hno. apply orb_false_iff in Hno. destruct Hno as [Ht Hno].
    pose proof (step_recording_other fuel options st ev Hrec Ht) as Hrec'.
    destruct (IH Hno _ Hrec') as [Hfin [lines Hout]].
    split; [exact Hfin|]. simpl run. fold (run fuel options).
    assert (Hstep : exists l, output (step fuel options st ev)
                              = output st ++ map (lineAt 1) l).
    { destruct Hrec as (Hi & He & Hp & _). unfold step. rewrite He.
      destruct (Event_BrowserClosed_dec ev) as [-> | Hne].
      - exists []. simpl handle. unfold onBrowserClosed, bind, gets.
        cbv beta iota. rewrite Hp. simpl. rewrite app_nil_r. reflexivity.
      - destruct (extendsAtDepthOne_handle fuel options ev Ht Hne st Hi)
          as (_ & _ & _ & l & Hl).
        exists l. exact Hl. }
    destruct Hstep as [l Hl]. exists (l ++ lines).
    change (fold_left (step fuel options) evs (step fuel options st ev))
      with (run fuel options (step fuel options st ev) evs).
    rewrite Hout, Hl, map_app, app_assoc. reflexivity.
Qed.

(** A recording that is finished once is the skeleton around its body: the
    [require] line and the [open(...)] line at depth zero, the lines of the
    interactions at depth one, the closing line at depth zero and the
    end-of-stream marker; the indentation is back at zero. *)
Theorem script_skeleton
    (fuel : nat) (options : RecorderOptions) (url : jsstring)
    (evs : list Event) (last : Event) :
  existsb isTrigger evs = false ->
  isTrigger last = true ->
  let st := run fuel options (started url options) (evs ++ [last]) in
  identation st = 0%Z /\
  exists lines,
    output st
    = [lineAt 0 requireLine; lineAt 0 (openLine (normalizeUrl url))]
        ++ map (lineAt 1) lines
        ++ [lineAt 0 closeLine; EndOfStream].
Proof.
  intros Hno Hlast st.
  destruct (run_at_depth_one fuel options evs Hno _ (started_recording url options))
    as [Hrec [lines Hout]].
  subst st. unfold run in *. rewrite fold_left_app. simpl fold_left.
  fold (run fuel options (started url options) evs) in *.
  set (s := run fuel options (started url options) evs) in *.
  destruct Hrec as (Hi & He & Hp & _).
  destruct (close_first options s Hi) as [cmds Hc].
  assert (Hstart : output (started url options)
                   = [lineAt 0 requireLine; lineAt 0 (openLine (normalizeUrl url))]).
  { unfold started, start, getBrowserInstance.
    destruct (wsEndpoint options) as [[|c t]|]; reflexivity. }
  unfold step. rewrite He.
  destruct last; try discriminate; simpl handle.
  - rewrite Hc. cbn. split; [reflexivity|]. exists lines.
    rewrite Hout, Hstart, <- app_assoc. reflexivity.
  - unfold onSigint. rewrite (bind_returned _ _ _ _ _ Hc).
    destruct (hasEndpoint options); cbn; (split; [reflexivity|]); exists lines;
      rewrite Hout, Hstart, <- app_assoc; reflexivity.
Qed.

Lemma script_skeleton_witness :
  let st := run 5 options0 (started (lit "example.com") options0)
              ([DebuggerPaused (world formPage (lit "SubmitEvent") 3 None)
                  (paused "listener:submit")] ++ [PageClose]) in
  identation st = 0%Z /\
  exists lines,
    output st
    = [lineAt 0 requireLine;
       lineAt 0 (openLine (normalizeUrl (lit "example.com")))]
        ++ map (lineAt 1) lines
        ++ [lineAt 0 closeLine; EndOfStream].
Proof.
  apply (script_skeleton 5 options0 (lit "example.com")
           [DebuggerPaused (world formPage (lit "SubmitEvent") 3 None)
              (paused "listener:submit")] PageClose);
    reflexivity.
Defined.

(** [emit(line)]: at a non-negative indentation the line goes out behind two
    spaces per level and in front of a newline. *)
Theorem emitted_line_is_indented (line : jsstring) (st : Session) :
  (0 <= identation st)%Z ->
  addLineToPuppeteerScript line st
  = (Returned tt,
     set_output
       (output st ++
          [Data ((List.repeat 32%N (2 * Z.to_nat (identation st)) ++ line)
                   ++ [10%N])]) st).
Proof. intros H. apply addLine_emits. exact H. Qed.

Lemma emitted_line_witness :
  addLineToPuppeteerScript (lit "await scrollToBottom();")
    (started (lit "example.com") options0)
  = (Returned tt,
     set_output
       (output (started (lit "example.com") options0) ++
          [Data (lit "  await scrollToBottom();" ++ [10%N])])
       (started (lit "example.com") options0)).
Proof.
  apply (emitted_line_is_indented (lit "await scrollToBottom();")
           (started (lit "example.com") options0)).
  vm_compute. discriminate.
Defined.

(** Every string the recorder passes through [escapeSelector] is written
    as a literal that reads back as that string: in the [click], [submit]
    and [expect] lines, and for both arguments of [type]. *)
Theorem escaped_string_reads_back (s v rest : jsstring) :
  stringLiteral (interpolate (escapeSelector (VStr s)) ++ rest) = Some (s, rest)
  /\ stringLiteral
       (skipn 12 (lit "await click(" ++ interpolate (escapeSelector (VStr s)) ++ lit ");"))
     = Some (s, lit ");")
  /\ stringLiteral
       (skipn 13 (lit "await submit(" ++ interpolate (escapeSelector (VStr s)) ++ lit ");"))
     = Some (s, lit ");")
  /\ stringLiteral
       (skipn 33 (lit "expect(page.url()).resolves.toBe("
                    ++ interpolate (escapeSelector (VStr s)) ++ lit ");"))
     = Some (s, lit ");")
  /\ stringLiteral
       (skipn 11 (lit "await type(" ++ interpolate (escapeSelector (VStr s)) ++ lit ", "
                    ++ interpolate (escapeSelector (VStr v)) ++ lit ");"))
     = Some (s, lit ", " ++ interpolate (escapeSelector (VStr v)) ++ lit ");")
  /\ stringLiteral
       (skipn 2 (lit ", " ++ interpolate (escapeSelector (VStr v)) ++ lit ");"))
     = Some (v, lit ");").
Proof.
  repeat split; apply stringLiteral_quoteJSONString.
Qed.

Lemma log_and_resume (st : Session) (cmds : list Command) :
  resume (set_console (console (set_sent (sent st ++ cmds) st) ++ [failedToGenerate])
            (set_sent (sent st ++ cmds) st))
  = (Returned tt,
     set_sent (sent st ++ cmds ++ [Debugger_setSkipAllPauses true;
                                   Debugger_resume false;
                                   Debugger_setSkipAllPauses false])
       (set_console (console st ++ [failedToGenerate]) st)).
Proof.
  unfold resume, skip, bind, send, modify.
  destruct st; unfold set_sent, set_console; cbn.
  rewrite <- !app_assoc. reflexivity.
Qed.

(** A click or submit whose target has no selector is logged and dropped:
    nothing is emitted and the pause is resumed. *)
Theorem unresolved_selector_is_logged
    (fuel : nat) (options : RecorderOptions) (w w' : World)
    (localFrame localFrame' : list PropertyDescriptor)
    (clicked submitted : option jsstring)
    (selector selector' : JsValue) (st : Session) :
  fst (findTargetId w localFrame [lit "MouseEvent"; lit "PointerEvent"] initial)
  = Returned clicked ->
  fst (isSubmitButton w clicked initial) = Returned (VBool false) ->
  fst (getSelector fuel w clicked initial) = Returned selector ->
  truthy selector = false ->
  fst (findTargetId w' localFrame' [lit "SubmitEvent"] initial) = Returned submitted ->
  fst (getSelector fuel w' submitted initial) = Returned selector' ->
  truthy selector' = false ->
  (exists cmds,
     handleClickEvent fuel options w localFrame st
     = (Returned tt,
        set_sent (sent st ++ cmds ++ [Debugger_setSkipAllPauses true;
                                      Debugger_resume false;
                                      Debugger_setSkipAllPauses false])
          (set_console (console st ++ [failedToGenerate]) st)))
  /\ (exists cmds,
        handleSubmitEvent fuel w' localFrame' st
        = (Returned tt,
           set_sent (sent st ++ cmds ++ [Debugger_setSkipAllPauses true;
                                         Debugger_resume false;
                                         Debugger_setSkipAllPauses false])
             (set_console (console st ++ [failedToGenerate]) st))).
Proof.
  intros Hc Hb Hs Ht Hc' Hs' Ht'. split.
  - exists (sent (snd (findTargetId w localFrame
                         [lit "MouseEvent"; lit "PointerEvent"] initial))
            ++ sent (snd (isSubmitButton w clicked initial))
            ++ sent (snd (getSelector fuel w clicked initial))).
    unfold handleClickEvent.
    rewrite (bind_returned _ _ _ _ _
               (sendsOnly_run _ _ st (sendsOnly_findTargetId _ _ _) Hc)).
    rewrite (bind_returned _ _ _ _ _
               (sendsOnly_run _ _ _ (sendsOnly_isSubmitButton _ _) Hb)).
    cbn [truthy].
    rewrite (bind_returned _ _ _ _ _
               (sendsOnly_run _ _ _ (sendsOnly_getSelector _ _ _) Hs)).
    rewrite Ht.
    unfold bind at 1, console_log, modify.
    rewrite !set_sent_twice. apply log_and_resume.
  - exists (sent (snd (findTargetId w' localFrame' [lit "SubmitEvent"] initial))
            ++ sent (snd (getSelector fuel w' submitted initial))).
    unfold handleSubmitEvent.
    rewrite (bind_returned _ _ _ _ _
               (sendsOnly_run _ _ st (sendsOnly_findTargetId _ _ _) Hc')).
    rewrite (bind_returned _ _ _ _ _
               (sendsOnly_run _ _ _ (sendsOnly_getSelector _ _ _) Hs')).
    rewrite Ht'.
    unfold bind at 1, console_log, modify.
    rewrite !set_sent_twice. apply log_and_resume.
Qed.

Lemma unresolved_selector_witness :
  let w := world formPage (lit "MouseEvent") 2 None in
  let w' := world formPage (lit "SubmitEvent") 2 None in
  let st := started (lit "example.com") options0 in
  (exists cmds,
     handleClickEvent 5 options0 w (getProperties w (lit "scope")) st
     = (Returned tt,
        set_sent (sent st ++ cmds ++ [Debugger_setSkipAllPauses true;
                                      Debugger_resume false;
                                      Debugger_setSkipAllPauses false])
          (set_console (console st ++ [failedToGenerate]) st)))
  /\ (exists cmds,
        handleSubmitEvent 5 w' (getProperties w' (lit "scope")) st
        = (Returned tt,
           set_sent (sent st ++ cmds ++ [Debugger_setSkipAllPauses true;
                                         Debugger_resume false;
                                         Debugger_setSkipAllPauses false])
             (set_console (console st ++ [failedToGenerate]) st))).
Proof.
  cbv zeta.
  apply (unresolved_selector_is_logged 5 options0
           (world formPage (lit "MouseEvent") 2 None)
           (world formPage (lit "SubmitEvent") 2 None)
           (getProperties (world formPage (lit "MouseEvent") 2 None) (lit "scope"))
           (getProperties (world formPage (lit "SubmitEvent") 2 None) (lit "scope"))
           (Some (objectIdOf 2)) (Some (objectIdOf 2)) VNull VNull
           (started (lit "example.com") options0));
    reflexivity.
Defined.


(* ================================================================== *)
(** ** More on the selector resolver *)
(* ================================================================== *)

Lemma includes_refl (s : jsstring) : includes s s = true.
Proof. apply includes_substring. exists [], []. rewrite app_nil_r. reflexivity. Qed.

Lemma includes_trans (a b c : jsstring) :
  includes a b = true -> includes b c = true -> includes a c = true.
Proof.
  rewrite !includes_substring.
  intros (p & q & ->) (p' & q' & ->).
  exists (p ++ p'), (q' ++ q). rewrite <- !app_assoc. reflexivity.
Qed.

(** One iteration of the walk, case by case. *)
Lemma walk_cases fuel w cur prev st :
  nonEmpty cur = true ->
  let nodes := queryAXTree w (byObject (Some cur)) in
  let run := getSelector_walk (S fuel) w (Some cur) prev st in
  (nodes = [] /\ fst run = Returned None)
  \/ (exists node rest, nodes = node :: rest /\
        (ax_name node = None \/ ax_role node = None) /\
        fst run = Thrown TypeError)
  \/ (exists node rest name role,
        nodes = node :: rest /\ ax_name node = Some name /\
        ax_role node = Some role /\
        ((includes name prev = false /\ fst run = Returned None)
         \/ (includes name prev = true /\ name <> [] /\
             (List.length (remaining w nodes (Some name) None) < 2)%nat /\
             fst run = Returned (Some (VStr (ariaName name))))
         \/ (includes name prev = true /\ name <> [] /\ role <> [] /\
             ~ (List.length (remaining w nodes (Some name) None) < 2)%nat /\
             (List.length (remaining w nodes (Some name) (Some role)) < 2)%nat /\
             fst run = Returned (Some (VStr (ariaNameRole name role))))
         \/ (includes name prev = true /\
             exists st',
               run = getSelector_walk fuel w
                       (ro_objectId (callFunctionOn w helpers_getParent cur))
                       name st'))).
Proof.
  intros Hc nodes run.
  assert (Hrun : run = getSelector_walk (S fuel) w (Some cur) prev st) by reflexivity.
  clearbody run. rewrite walk_query in Hrun by exact Hc. fold nodes in Hrun.
  destruct nodes as [|node rest] eqn:Hn;
    [left; split; [reflexivity | rewrite Hrun; reflexivity]|].
  right.
  destruct (ax_name node) as [name|] eqn:Hname.
  2:{ left. exists node, rest. split; [reflexivity|]. split; [left; exact Hname|].
      rewrite Hrun. reflexivity. }
  destruct (ax_role node) as [role|] eqn:Hrole.
  2:{ left. exists node, rest. split; [reflexivity|]. split; [right; exact Hrole|].
      rewrite Hrun. reflexivity. }
  right. exists node, rest, name, role.
  split; [reflexivity|]. split; [exact Hname|]. split; [exact Hrole|].
  unfold orThrow in Hrun. unfold bind at 1, ret at 1 in Hrun.
  unfold bind at 1, ret at 1 in Hrun.
  destruct (includes name prev) eqn:Hi; cbn [negb] in Hrun;
    [|left; split; [reflexivity | rewrite Hrun; reflexivity]].
  right.
  unfold bind at 1 in Hrun. rewrite checkUnique_run in Hrun.
  destruct (Nat.ltb_spec (List.length (remaining w (node :: rest) (Some name) None)) 2)
    as [Hu1 | Hu1].
  - destruct name as [|c name].
    + cbn [nonEmpty andb] in Hrun.
      unfold bind at 1 in Hrun. rewrite checkUnique_run in Hrun.
      cbn [nonEmpty andb] in Hrun.
      right. right. split; [reflexivity|].
      unfold bind at 1, Runtime_callFunctionOn_, bind at 1, send, modify, ret in Hrun.
      eexists. exact Hrun.
    + left. split; [reflexivity|]. split; [discriminate|]. split; [exact Hu1|].
      rewrite Hrun. reflexivity.
  - rewrite andb_false_r in Hrun.
    unfold bind at 1 in Hrun. rewrite checkUnique_run in Hrun.
    destruct (nonEmpty name && nonEmpty role
              && (List.length (remaining w (node :: rest) (Some name) (Some role)) <? 2)%nat)
      eqn:Hu2.
    + right. left.
      apply andb_true_iff in Hu2. destruct Hu2 as [Hnr Hu2].
      apply andb_true_iff in Hnr. destruct Hnr as [Hne Hre].
      apply Nat.ltb_lt in Hu2.
      split; [reflexivity|].
      split; [destruct name; discriminate|].
      split; [destruct role; discriminate|].
      split; [lia|]. split; [exact Hu2|].
      rewrite Hrun. reflexivity.
    + right. right. split; [reflexivity|].
      unfold bind at 1, Runtime_callFunctionOn_, bind at 1, send, modify, ret in Hrun.
      eexists. exact Hrun.
Qed.

Lemma walk_never_diverges w d :
  forall o prev st fuel,
    idTruthy (ancestor w d o) = false -> (d <= fuel)%nat ->
    fst (getSelector_walk fuel w o prev st) <> Diverged.
Proof.
  induction d as [|d IH]; intros o prev st fuel Hend Hfuel.
  - simpl in Hend. destruct fuel; simpl; rewrite Hend; discriminate.
  - destruct fuel as [|fuel]; [lia|].
    destruct o as [cur|]; [|simpl; discriminate].
    destruct (nonEmpty cur) eqn:Hc; [|simpl; rewrite Hc; discriminate].
    simpl in Hend. rewrite Hc in Hend.
    destruct (walk_cases fuel w cur prev st Hc)
      as [[_ H] | [(node & rest & _ & _ & H)
                  | (node & rest & name & role & _ & _ & _ & H)]];
      try (rewrite H; discriminate).
    destruct H as [[_ H] | [(_ & _ & _ & H) | [(_ & _ & _ & _ & _ & H) | (_ & st' & H)]]];
      try (rewrite H; discriminate).
    rewrite H. apply IH; [exact Hend | lia].
Qed.

(** The walk of [getSelector] ends: when the chain of parents above the target
    is over after [d] steps, [d] iterations are enough, and the resolver
    returns or throws. *)
Theorem getSelector_terminates
    (w : World) (target : option jsstring) (d fuel : nat) (st : Session) :
  idTruthy (ancestor w d target) = false ->
  (d <= fuel)%nat ->
  fst (getSelector fuel w target st) <> Diverged.
Proof.
  intros Hend Hfuel. unfold getSelector, bind at 1.
  pose proof (walk_never_diverges w d target [] st fuel Hend Hfuel) as Hw.
  destruct (getSelector_walk fuel w target [] st) as [[[v|]| e |] st'];
    cbn [fst] in *; try discriminate; try congruence.
  unfold Runtime_callFunctionOn_, bind, send, modify, ret, throw.
  destruct target; discriminate.
Qed.

Lemma getSelector_terminates_witness :
  fst (getSelector 3 (world cardPage (lit "MouseEvent") 5 None)
         (Some (objectIdOf 5)) initial) <> Diverged.
Proof.
  apply (getSelector_terminates (world cardPage (lit "MouseEvent") 5 None)
           (Some (objectIdOf 5)) 3 3 initial).
  - reflexivity.
  - lia.
Defined.

Lemma walk_returns w fuel :
  forall cur prev st v,
    fst (getSelector_walk fuel w cur prev st) = Returned (Some v) ->
    exists k obj name,
      ancestor w k cur = Some obj /\ chosenAt w obj v name /\
      includes name prev = true /\
      forall c node rest n,
        cur = Some c -> queryAXTree w (byObject (Some c)) = node :: rest ->
        ax_name node = Some n -> includes name n = true.
Proof.
  induction fuel as [|fuel IH]; intros cur prev st v Hv.
  - simpl in Hv. destruct (idTruthy cur); discriminate.
  - destruct cur as [cur|]; [|simpl in Hv; discriminate].
    destruct (nonEmpty cur) eqn:Hc; [|simpl in Hv; rewrite Hc in Hv; discriminate].
    destruct (walk_cases fuel w cur prev st Hc)
      as [[_ H] | [(node & rest & _ & _ & H)
                  | (node & rest & name & role & Hq & Hn & Hr & H)]];
      try (rewrite H in Hv; discriminate).
    assert (Hsame : forall c node0 rest0 n,
              Some cur = Some c ->
              queryAXTree w (byObject (Some c)) = node0 :: rest0 ->
              ax_name node0 = Some n -> n = name).
    { intros c node0 rest0 n Hcc Hq0 Hn0. inversion Hcc; subst c.
      rewrite Hq in Hq0. inversion Hq0; subst. congruence. }
    destruct H as [[_ H] | [(Hi & Hne & Hu & H) | [(Hi & Hne & Hre & Hnu & Hu & H)
                                                  | (Hi & st' & H)]]].
    + rewrite H in Hv. discriminate.
    + rewrite H in Hv. inversion Hv; subst v. rewrite Hq in Hu.
      exists O, cur, name. split; [reflexivity|]. split; [|split; [exact Hi|]].
      * exists node, rest. split; [exact Hq|]. split; [exact Hn|].
        split; [exact Hne|]. left. split; [reflexivity | exact Hu].
      * intros c node0 rest0 n Hcc Hq0 Hn0.
        rewrite (Hsame _ _ _ _ Hcc Hq0 Hn0). apply includes_refl.
    + rewrite H in Hv. inversion Hv; subst v. rewrite Hq in Hu, Hnu.
      exists O, cur, name. split; [reflexivity|]. split; [|split; [exact Hi|]].
      * exists node, rest. split; [exact Hq|]. split; [exact Hn|].
        split; [exact Hne|]. right. exists role. repeat split; auto.
      * intros c node0 rest0 n Hcc Hq0 Hn0.
        rewrite (Hsame _ _ _ _ Hcc Hq0 Hn0). apply includes_refl.
    + rewrite H in Hv.
      destruct (IH _ _ _ _ Hv) as (k & obj & name' & Hk & Hch & Hinc & _).
      exists (S k), obj, name'. split; [simpl; rewrite Hc; exact Hk|].
      split; [exact Hch|]. split; [exact (includes_trans _ _ _ Hinc Hi)|].
      intros c node0 rest0 n Hcc Hq0 Hn0.
      rewrite (Hsame _ _ _ _ Hcc Hq0 Hn0). exact Hinc.
Qed.

Lemma getSelector_returns w fuel target st v :
  fst (getSelector fuel w (Some target) st) = Returned v ->
  v = ro_value (callFunctionOn w helpers_cssPath target)
  \/ fst (getSelector_walk fuel w (Some target) [] st) = Returned (Some v).
Proof.
  unfold getSelector, bind at 1.
  destruct (getSelector_walk fuel w (Some target) [] st) as [[[v'|]| e |] st'];
    cbn [fst]; try discriminate.
  - unfold ret. cbn. intros H. right. congruence.
  - unfold Runtime_callFunctionOn_, bind, send, modify, ret. cbn.
    intros H. left. congruence.
Qed.

(** Whatever [getSelector] returns is the CSS path of the target itself or an
    accessible selector of the target or one of its ancestors: made from
    that node's non-empty name, with the uniqueness test passed for the
    name (or failed for the name and passed for name and role). It never
    returns [aria/] with an empty name. *)
Theorem getSelector_result_is_tested
    (w : World) (fuel : nat) (target : jsstring) (st : Session) (v : JsValue) :
  fst (getSelector fuel w (Some target) st) = Returned v ->
  v = ro_value (callFunctionOn w helpers_cssPath target)
  \/ exists k obj name,
       ancestor w k (Some target) = Some obj /\ chosenAt w obj v name.
Proof.
  intros H. destruct (getSelector_returns _ _ _ _ _ H) as [Hcss | Hw];
    [left; exact Hcss | right].
  destruct (walk_returns _ _ _ _ _ _ Hw) as (k & obj & name & Hk & Hch & _).
  exists k, obj, name. split; assumption.
Qed.

Lemma getSelector_result_witness :
  let w := world cardPage (lit "MouseEvent") 3 None in
  VStr (lit "aria/Delete Reports")
  = ro_value (callFunctionOn w helpers_cssPath (objectIdOf 3))
  \/ exists k obj name,
       ancestor w k (Some (objectIdOf 3)) = Some obj /\
       chosenAt w obj (VStr (lit "aria/Delete Reports")) name.
Proof.
  apply (getSelector_result_is_tested (world cardPage (lit "MouseEvent") 3 None)
           3 (objectIdOf 3) initial (VStr (lit "aria/Delete Reports"))).
  reflexivity.
Defined.

(** The accessible name in a selector returned by [getSelector] contains the
    accessible name of the target itself: the walk only moves to an
    ancestor whose name contains the name it came from. *)
Theorem aria_selector_contains_target_name
    (w : World) (fuel : nat) (target : jsstring) (st : Session) (v : JsValue)
    (node : AXNode) (rest : list AXNode) (targetName : jsstring) :
  queryAXTree w (byObject (Some target)) = node :: rest ->
  ax_name node = Some targetName ->
  fst (getSelector fuel w (Some target) st) = Returned v ->
  v = ro_value (callFunctionOn w helpers_cssPath target)
  \/ exists k obj name,
       ancestor w k (Some target) = Some obj /\ chosenAt w obj v name /\
       includes name targetName = true.
Proof.
  intros Hq Hn H. destruct (getSelector_returns _ _ _ _ _ H) as [Hcss | Hw];
    [left; exact Hcss | right].
  destruct (walk_returns _ _ _ _ _ _ Hw) as (k & obj & name & Hk & Hch & _ & Hinc).
  exists k, obj, name. split; [exact Hk|]. split; [exact Hch|].
  exact (Hinc target node rest targetName eq_refl Hq Hn).
Qed.

Lemma aria_selector_contains_witness :
  let w := world cardPage (lit "MouseEvent") 3 None in
  VStr (lit "aria/Delete Reports")
  = ro_value (callFunctionOn w helpers_cssPath (objectIdOf 3))
  \/ exists k obj name,
       ancestor w k (Some (objectIdOf 3)) = Some obj /\
       chosenAt w obj (VStr (lit "aria/Delete Reports")) name /\
       includes name (lit "Delete") = true.
Proof.
  apply (aria_selector_contains_target_name
           (world cardPage (lit "MouseEvent") 3 None) 3 (objectIdOf 3) initial
           (VStr (lit "aria/Delete Reports"))
           (axOf (element 3 (Some 2%N) "Delete" "button")) []
           (lit "Delete"));
    reflexivity.
Defined.

(* ================================================================== *)
(** ** The commands a handler sends *)
(* ================================================================== *)

Lemma appends_refl P st : appends P st st.
Proof. exists []. rewrite app_nil_r. split; [reflexivity | constructor]. Qed.

Lemma appends_trans P a b c : appends P a b -> appends P b c -> appends P a c.
Proof.
  intros (l & Hl & Pl) (l' & Hl' & Pl').
  exists (l ++ l'). split; [rewrite Hl', Hl, app_assoc; reflexivity|].
  apply Forall_app; auto.
Qed.

Section Appends.

Variable options : RecorderOptions.
Variable P : Command -> Prop.
Hypothesis P_props : forall o, P (Runtime_getProperties o).
Hypothesis P_call : forall fn o, P (Runtime_callFunctionOn fn o).
Hypothesis P_query : forall q, P (Accessibility_queryAXTree q).
Hypothesis P_document : P (DOM_getDocument 0 false).
Hypothesis P_evaluate : P (Runtime_evaluate scrollHeightExpression).
Hypothesis P_snapshot :
  saveDom options = true ->
  P (DOM_getDocument (-1) true) /\ (forall n, P (DOM_getOuterHTML n)) /\
  forall f d, P (Fs_writeFile f d).
(** For the handlers that act on a pause. *)
Hypothesis P_resume : P (Debugger_resume false).
Hypothesis P_skipAll : forall b, P (Debugger_setSkipAllPauses b).
(** For the handlers outside the pause protocol. *)
Hypothesis P_enable : P Debugger_enable.
Hypothesis P_breakpoints :
  P (DOMDebugger_setEventListenerBreakpoint (lit "click")) /\
  P (DOMDebugger_setEventListenerBreakpoint (lit "change")) /\
  P (DOMDebugger_setEventListenerBreakpoint (lit "submit")).
Hypothesis P_close : hasEndpoint options = false -> P Browser_close.
Hypothesis P_exit : P Process_exit.

Let R := appends P.

Lemma ap_ret {A} (a : A) : frame R (ret a).
Proof. intros st. apply appends_refl. Qed.

Lemma ap_throw {A} (e : JsError) : frame R (@throw A e).
Proof. intros st. apply appends_refl. Qed.

Lemma ap_diverge {A} : frame R (@diverge A).
Proof. intros st. apply appends_refl. Qed.

Lemma ap_gets {A} (f : Session -> A) : frame R (gets f).
Proof. intros st. apply appends_refl. Qed.

Lemma ap_orThrow {A} (e : JsError) (o : option A) : frame R (orThrow e o).
Proof. destruct o; [apply ap_ret | apply ap_throw]. Qed.

Lemma ap_bind {A B} (m : M A) (k : A -> M B) :
  frame R m -> (forall a, frame R (k a)) -> frame R (bind m k).
Proof. apply frame_bind. apply appends_trans. Qed.

Lemma ap_send (c : Command) : P c -> frame R (send c).
Proof.
  intros Hc st. exists [c]. split; [reflexivity | constructor; [exact Hc | constructor]].
Qed.

(** A change of the session that leaves the commands alone. *)
Lemma ap_modify (f : Session -> Session) :
  (forall st, sent (f st) = sent st) -> frame R (modify f).
Proof.
  intros Hf st. exists []. cbn. rewrite Hf, app_nil_r.
  split; [reflexivity | constructor].
Qed.

Lemma ap_addLine (line : jsstring) : frame R (addLineToPuppeteerScript line).
Proof.
  intros st. unfold addLineToPuppeteerScript, bind, gets, push, modify, throw.
  destruct (JS.repeat (lit "  ") (identation st));
    (exists []; cbn; rewrite app_nil_r; split; [reflexivity | constructor]).
Qed.

Lemma ap_console_log (msg : jsstring) : frame R (console_log msg).
Proof. apply ap_modify. reflexivity. Qed.

Lemma ap_callFunctionOn w fn o : frame R (Runtime_callFunctionOn_ w fn o).
Proof.
  unfold Runtime_callFunctionOn_.
  apply ap_bind; [apply ap_send, P_call | intros _].
  destruct o; [apply ap_ret | apply ap_throw].
Qed.

Lemma ap_getProperties w o : frame R (Runtime_getProperties_ w o).
Proof.
  unfold Runtime_getProperties_.
  apply ap_bind; [apply ap_send, P_props | intros _].
  destruct o; [apply ap_ret | apply ap_throw].
Qed.

Lemma ap_queryAXTree w q : frame R (Accessibility_queryAXTree_ w q).
Proof.
  unfold Accessibility_queryAXTree_.
  apply ap_bind; [apply ap_send, P_query | intros _; apply ap_ret].
Qed.

Lemma ap_isSubmitButton w o : frame R (isSubmitButton w o).
Proof.
  unfold isSubmitButton.
  apply ap_bind; [apply ap_callFunctionOn | intros r; apply ap_ret].
Qed.

Lemma ap_checkUnique w ignored name role : frame R (checkUnique w ignored name role).
Proof.
  unfold checkUnique.
  apply ap_bind; [apply ap_send, P_document | intros _].
  apply ap_bind; [apply ap_queryAXTree | intros r; apply ap_ret].
Qed.

Lemma ap_findTargetId w localFrame names : frame R (findTargetId w localFrame names).
Proof.
  unfold findTargetId.
  destruct (findEvent names localFrame) as [e | [ev |]];
    [apply ap_throw | | apply ap_throw].
  apply ap_bind; [apply ap_getProperties | intros props].
  apply ap_bind; [apply ap_orThrow | intros target].
  apply ap_bind; [apply ap_orThrow | intros v; apply ap_ret].
Qed.

Lemma ap_getSelector_walk fuel w :
  forall cur prev, frame R (getSelector_walk fuel w cur prev).
Proof.
  induction fuel as [|fuel IH]; intros cur prev; simpl.
  - destruct (idTruthy cur); [apply ap_diverge | apply ap_ret].
  - destruct (idTruthy cur); [|apply ap_ret].
    apply ap_bind; [apply ap_queryAXTree | intros nodes].
    destruct nodes as [|node rest]; [apply ap_ret|].
    apply ap_bind; [apply ap_orThrow | intros name].
    apply ap_bind; [apply ap_orThrow | intros role].
    destruct (negb (includes name prev)); [apply ap_ret|].
    apply ap_bind; [apply ap_checkUnique | intros u1].
    destruct (nonEmpty name && u1); [apply ap_ret|].
    apply ap_bind; [apply ap_checkUnique | intros u2].
    destruct (nonEmpty name && nonEmpty role && u2); [apply ap_ret|].
    apply ap_bind; [apply ap_callFunctionOn | intros r; apply IH].
Qed.

Lemma ap_getSelector fuel w o : frame R (getSelector fuel w o).
Proof.
  unfold getSelector.
  apply ap_bind; [apply ap_getSelector_walk | intros [v|]; [apply ap_ret|]].
  apply ap_bind; [apply ap_callFunctionOn | intros r; apply ap_ret].
Qed.

Lemma ap_saveDomIfNeeded w : frame R (saveDomIfNeeded options w).
Proof.
  unfold saveDomIfNeeded.
  destruct (saveDom options) eqn:Hs; cbn [negb]; [|apply ap_ret].
  destruct (P_snapshot eq_refl) as (Hd & Ho & Hf).
  apply ap_bind; [apply ap_send, Hd | intros _].
  apply ap_bind; [apply ap_send, Ho | intros _].
  apply ap_bind; [apply ap_gets | intros fs].
  destruct (freeFileName _ _ _ _ _); [|apply ap_diverge].
  apply ap_bind; [apply ap_send, Hf | intros _].
  apply ap_bind; [apply ap_modify; reflexivity | intros _; apply ap_addLine].
Qed.

Lemma ap_skip : frame R skip.
Proof. apply ap_send, P_resume. Qed.

Lemma ap_resume : frame R resume.
Proof.
  unfold resume.
  apply ap_bind; [apply ap_send, P_skipAll | intros _].
  apply ap_bind; [apply ap_skip | intros _; apply ap_send, P_skipAll].
Qed.

Lemma ap_handleClickEvent fuel w localFrame :
  frame R (handleClickEvent fuel options w localFrame).
Proof.
  unfold handleClickEvent.
  apply ap_bind; [apply ap_findTargetId | intros targetId].
  apply ap_bind; [apply ap_isSubmitButton | intros isSubmit].
  destruct (truthy isSubmit); [apply ap_skip|].
  apply ap_bind; [apply ap_getSelector | intros selector].
  apply ap_bind; [| intros _; apply ap_resume].
  destruct (truthy selector); [|apply ap_console_log].
  apply ap_bind; [apply ap_saveDomIfNeeded | intros _; apply ap_addLine].
Qed.

Lemma ap_handleSubmitEvent fuel w localFrame :
  frame R (handleSubmitEvent fuel w localFrame).
Proof.
  unfold handleSubmitEvent.
  apply ap_bind; [apply ap_findTargetId | intros targetId].
  apply ap_bind; [apply ap_getSelector | intros selector].
  apply ap_bind; [| intros _; apply ap_resume].
  destruct (truthy selector); [apply ap_addLine | apply ap_console_log].
Qed.

Lemma ap_handleChangeEvent fuel w localFrame :
  frame R (handleChangeEvent fuel w localFrame).
Proof.
  unfold handleChangeEvent.
  apply ap_bind; [apply ap_findTargetId | intros targetId].
  apply ap_bind; [apply ap_callFunctionOn | intros targetValue].
  apply ap_bind; [apply ap_getSelector | intros selector].
  apply ap_bind; [apply ap_addLine | intros _; apply ap_resume].
Qed.

Lemma ap_handleScrollEvent w : frame R (handleScrollEvent w).
Proof.
  unfold handleScrollEvent.
  apply ap_bind; [apply ap_gets | intros outstanding].
  destruct outstanding; [apply ap_resume|].
  apply ap_bind; [apply ap_send, P_evaluate | intros _].
  apply ap_bind; [apply ap_modify; reflexivity | intros _; apply ap_resume].
Qed.

Lemma ap_onTimerFired w : frame R (onTimerFired w).
Proof.
  unfold onTimerFired.
  apply ap_bind; [apply ap_gets | intros pending].
  destruct pending as [|t rest]; [apply ap_ret|].
  apply ap_bind; [apply ap_modify; reflexivity | intros _].
  unfold scrollTimerCallback.
  apply ap_bind; [apply ap_send, P_evaluate | intros _].
  apply ap_bind; [| intros _; apply ap_modify; reflexivity].
  destruct (heightGrew _ _); [apply ap_addLine | apply ap_ret].
Qed.

Lemma ap_onPaused fuel w pausedEvent : frame R (onPaused fuel options w pausedEvent).
Proof.
  unfold onPaused.
  apply ap_bind; [apply ap_orThrow | intros eventName].
  apply ap_bind; [apply ap_getProperties | intros result].
  repeat match goal with
         | |- frame _ (if ?b then _ else _) => destruct b
         end;
    first [ apply ap_handleClickEvent | apply ap_handleSubmitEvent
          | apply ap_handleChangeEvent | apply ap_handleScrollEvent
          | apply ap_skip ].
Qed.

Lemma ap_onDomContentLoaded : frame R onDomContentLoaded.
Proof.
  destruct P_breakpoints as (Hc & Hg & Hs). unfold onDomContentLoaded.
  apply ap_bind; [apply ap_send, P_enable | intros _].
  apply ap_bind; [apply ap_send, Hc | intros _].
  apply ap_bind; [apply ap_send, Hg | intros _; apply ap_send, Hs].
Qed.

Lemma ap_onFrameNavigated hasParent frameUrl :
  frame R (onFrameNavigated hasParent frameUrl).
Proof.
  unfold onFrameNavigated. destruct hasParent; [apply ap_ret | apply ap_addLine].
Qed.

Lemma ap_close : frame R (close options).
Proof.
  unfold close.
  apply ap_bind; [apply ap_modify; reflexivity | intros _].
  apply ap_bind; [apply ap_addLine | intros _].
  apply ap_bind; [apply ap_modify; reflexivity | intros _].
  destruct (hasEndpoint options) eqn:He; cbn [negb];
    [apply ap_ret | apply ap_send, P_close, eq_refl].
Qed.

Lemma ap_process_exit : frame R process_exit.
Proof.
  unfold process_exit.
  apply ap_bind; [apply ap_send, P_exit | intros _; apply ap_modify; reflexivity].
Qed.

Lemma ap_handle fuel ev : frame R (handle fuel options ev).
Proof.
  destruct ev; simpl handle.
  - apply ap_onDomContentLoaded.
  - apply ap_onPaused.
  - apply ap_onTimerFired.
  - apply ap_onFrameNavigated.
  - apply ap_close.
  - unfold onSigint. apply ap_bind; [apply ap_close | intros _].
    destruct (hasEndpoint options);
      [apply ap_process_exit | apply ap_modify; reflexivity].
  - unfold onBrowserClosed. apply ap_bind; [apply ap_gets | intros waiting].
    destruct waiting; [apply ap_process_exit | apply ap_ret].
Qed.

(** Over a run the commands only accumulate. *)
Lemma ap_run fuel evs : forall st, R st (run fuel options st evs).
Proof.
  induction evs as [|ev evs IH]; intros st; [apply appends_refl|].
  simpl. eapply appends_trans; [|apply IH].
  unfold step. destruct (exited st); [apply appends_refl | apply ap_handle].
Qed.

End Appends.


Lemma allowed_run fuel options url evs :
  Forall (allowed options) (sent (run fuel options (started url options) evs)).
Proof.
  assert (Hrun : appends (allowed options) (started url options)
                    (run fuel options (started url options) evs)).
  { apply ap_run; intros; cbn; auto. }
  destruct Hrun as (added & Hs & Ha).
  rewrite Hs. apply Forall_app. split; [|exact Ha].
  unfold started, start, getBrowserInstance, hasEndpoint.
  destruct (wsEndpoint options) as [[|c s]|] eqn:He; cbn;
    repeat constructor; cbn; unfold hasEndpoint; rewrite ?He; auto.
Qed.

(** Whatever happens in a session, the recorder never closes or launches a
    browser when it was given one to attach to, never asks for the outer
    HTML or writes a file unless [saveDom] is set, never sets a breakpoint
    on [scroll], and never resumes with [terminateOnResume]. *)
Theorem recorder_never_sends
    (fuel : nat) (options : RecorderOptions) (url : jsstring)
    (evs : list Event) :
  let cmds := sent (run fuel options (started url options) evs) in
  (hasEndpoint options = true ->
   ~ In Browser_close cmds /\ ~ In Puppeteer_launch cmds)
  /\ (saveDom options = false ->
      forall c, In c cmds ->
        (forall f d, c <> Fs_writeFile f d) /\ (forall n, c <> DOM_getOuterHTML n)
        /\ c <> DOM_getDocument (-1) true)
  /\ ~ In (DOMDebugger_setEventListenerBreakpoint (lit "scroll")) cmds
  /\ ~ In (Debugger_resume true) cmds.
Proof.
  intros cmds.
  pose proof (allowed_run fuel options url evs) as H. fold cmds in H.
  rewrite Forall_forall in H.
  split; [|split; [|split]].
  - intros He. split; intros Hin; apply H in Hin; cbn in Hin; congruence.
  - intros Hs c Hin. apply H in Hin.
    split; [|split].
    + intros f d ->. cbn in Hin. congruence.
    + intros n ->. cbn in Hin. congruence.
    + intros ->. cbn in Hin. destruct Hin as [[Hd _] | (_ & _ & Hsd)];
        [discriminate | congruence].
  - intros Hin. apply H in Hin. cbn in Hin.
    destruct Hin as [Hc | [Hc | Hc]]; discriminate.
  - intros Hin. apply H in Hin. cbn in Hin. discriminate.
Qed.

(* ================================================================== *)
(** ** The pause protocol *)
(* ================================================================== *)







(* ================================================================== *)
(** ** Snapshots of the DOM *)
(* ================================================================== *)

Lemma lit_inj (s s' : string) : lit s = lit s' -> s = s'.
Proof.
  unfold lit. intros H.
  apply (f_equal (map ascii_of_N)) in H. rewrite !map_map in H.
  rewrite !(map_ext _ (fun a => a) ascii_N_embedding), !map_id in H.
  apply (f_equal string_of_list_ascii) in H.
  rewrite !string_of_list_ascii_of_string in H. exact H.
Qed.

Lemma ofN_inj (n m : N) : ofN n = ofN m -> n = m.
Proof.
  unfold ofN. intros H. apply lit_inj in H.
  apply (f_equal NilEmpty.uint_of_string) in H. rewrite !NilEmpty.usu in H.
  inversion H as [H'].
  apply (f_equal N.of_uint) in H'. rewrite !DecimalN.Unsigned.of_to in H'.
  exact H'.
Qed.

Lemma snapshotName_inj (timestamp n m : N) :
  snapshotName timestamp n = snapshotName timestamp m -> n = m.
Proof.
  unfold snapshotName. intros H.
  apply app_inv_head in H. apply app_inv_head in H. apply app_inv_tail in H.
  apply ofN_inj, H.
Qed.

Lemma existsSync_In fs name : existsSync fs name = true <-> In name fs.
Proof.
  unfold existsSync. rewrite existsb_exists. split.
  - intros (x & Hx & He). apply eqb_eq in He. subst. exact Hx.
  - intros H. exists name. split; [exact H | apply eqb_refl].
Qed.

Lemma freeFileName_S fuel fs timestamp name suffix :
  freeFileName (S fuel) fs timestamp name suffix
  = if existsSync fs name
    then freeFileName fuel fs timestamp (snapshotName timestamp suffix) (suffix + 1)
    else Some name.
Proof. reflexivity. Qed.

Lemma freeFileName_O fs timestamp name suffix :
  freeFileName O fs timestamp name suffix
  = if existsSync fs name then None else Some name.
Proof. reflexivity. Qed.

Lemma freeFileName_free fs timestamp fuel :
  forall name suffix f,
    freeFileName fuel fs timestamp name suffix = Some f ->
    existsSync fs f = false /\
    (f = name \/ exists k, (suffix <= k)%N /\ f = snapshotName timestamp k).
Proof.
  induction fuel as [|fuel IH]; intros name suffix f.
  - rewrite freeFileName_O. destruct (existsSync fs name) eqn:E; [discriminate|].
    intros H; inversion H; subst. auto.
  - rewrite freeFileName_S. destruct (existsSync fs name) eqn:E.
    + intros H. destruct (IH _ _ _ H) as [Hfree [-> | (k & Hk & ->)]].
      * split; [exact Hfree|]. right. exists suffix. split; [lia | reflexivity].
      * split; [exact Hfree|]. right. exists k. split; [lia | reflexivity].
    + intros H; inversion H; subst. auto.
Qed.

Lemma freeFileName_none_head fs timestamp fuel name suffix :
  freeFileName fuel fs timestamp name suffix = None -> In name fs.
Proof.
  intros H. apply existsSync_In.
  destruct fuel; [rewrite freeFileName_O in H | rewrite freeFileName_S in H];
    destruct (existsSync fs name); [reflexivity | discriminate
                                   | reflexivity | discriminate].
Qed.

Lemma freeFileName_none fs timestamp fuel :
  forall name suffix,
    freeFileName fuel fs timestamp name suffix = None ->
    forall k, (k < fuel)%nat ->
      In (snapshotName timestamp (suffix + N.of_nat k)) fs.
Proof.
  induction fuel as [|fuel IH]; intros name suffix H k Hk; [lia|].
  rewrite freeFileName_S in H. destruct (existsSync fs name) eqn:E; [|discriminate].
  destruct k as [|k].
  - rewrite N.add_0_r. exact (freeFileName_none_head _ _ _ _ _ H).
  - replace (suffix + N.of_nat (S k))%N with (suffix + 1 + N.of_nat k)%N by lia.
    apply (IH _ _ H). lia.
Qed.

(** The loop that looks for a free file name ends within one more try than
    there are files. *)
Lemma freeFileName_found fs timestamp name :
  freeFileName (S (List.length fs)) fs timestamp name 1 <> None.
Proof.
  intros H.
  pose proof (freeFileName_none fs timestamp _ _ _ H) as Hall.
  set (tried := map (fun k => snapshotName timestamp (1 + N.of_nat k))
                    (seq 0 (S (List.length fs)))).
  assert (Hnd : NoDup tried).
  { apply Injective_map_NoDup; [|apply seq_NoDup].
    intros a b Hab. apply snapshotName_inj in Hab. lia. }
  assert (Hincl : incl tried fs).
  { intros x Hx. apply in_map_iff in Hx. destruct Hx as (k & <- & Hk).
    apply in_seq in Hk. apply Hall. lia. }
  pose proof (NoDup_incl_length Hnd Hincl) as Hlen.
  unfold tried in Hlen. rewrite length_map, length_seq in Hlen. lia.
Qed.

Lemma saveDomIfNeeded_run options w st :
  saveDom options = true ->
  (0 <= identation st)%Z ->
  exists fileName,
    existsSync (files st) fileName = false /\
    (fileName = ofN (dateNow w / 1000) ++ lit ".html"
     \/ exists k, fileName = snapshotName (dateNow w / 1000) k) /\
    saveDomIfNeeded options w st
    = (Returned tt,
       set_output
         (output st ++ [lineAt (identation st) (lit "// saved DOM to " ++ fileName)])
         (set_files (fileName :: files st)
            (set_sent (sent st ++ [DOM_getDocument (-1) true;
                                   DOM_getOuterHTML (root_nodeId w);
                                   Fs_writeFile fileName (outerHTML w)]) st))).
Proof.
  intros Hs Hi. unfold saveDomIfNeeded. rewrite Hs. cbn [negb].
  destruct (freeFileName (S (List.length (files st))) (files st) (dateNow w / 1000)
              (ofN (dateNow w / 1000) ++ lit ".html") 1) as [fileName|] eqn:Hf.
  2:{ exfalso. exact (freeFileName_found _ _ _ Hf). }
  destruct (freeFileName_free _ _ _ _ _ _ Hf) as [Hfree Hshape].
  exists fileName. split; [exact Hfree|]. split.
  { destruct Hshape as [-> | (k & _ & ->)]; [left; reflexivity | right; eauto]. }
  unfold bind at 1, send at 1, modify at 1.
  unfold bind at 1, send at 1, modify at 1.
  unfold bind at 1, gets at 1.
  cbn [files set_sent]. rewrite Hf.
  unfold bind at 1, send at 1, modify at 1.
  unfold bind at 1, modify at 1.
  rewrite addLine_emits by (destruct st; exact Hi).
  destruct st; unfold set_output, set_files, set_sent; cbn.
  rewrite <- !app_assoc. reflexivity.
Qed.

(** A snapshot never overwrites a file and always gets written: the name
    chosen is [<timestamp>.html] or [<timestamp>_<n>.html], it is not the
    name of an existing file, the loop that looks for it ends, and the
    script gets the comment line that names it. The files written in a
    session are therefore all different. *)
Theorem snapshot_gets_a_new_file
    (options : RecorderOptions) (w : World) (st : Session) :
  saveDom options = true ->
  (0 <= identation st)%Z ->
  exists fileName st',
    saveDomIfNeeded options w st = (Returned tt, st') /\
    ~ In fileName (files st) /\
    (fileName = ofN (dateNow w / 1000) ++ lit ".html"
     \/ exists n, fileName = ofN (dateNow w / 1000) ++ lit "_" ++ ofN n ++ lit ".html") /\
    files st' = fileName :: files st /\
    (NoDup (files st) -> NoDup (files st')) /\
    output st'
    = output st ++ [lineAt (identation st) (lit "// saved DOM to " ++ fileName)] /\
    exists cmds,
      sent st' = sent st ++ cmds ++ [Fs_writeFile fileName (outerHTML w)].
Proof.
  intros Hs Hi.
  destruct (saveDomIfNeeded_run options w st Hs Hi) as (fileName & Hfree & Hshape & Hrun).
  assert (Hnotin : ~ In fileName (files st)).
  { intros Hin. apply existsSync_In in Hin. congruence. }
  eexists fileName, _. split; [exact Hrun|].
  split; [exact Hnotin|]. split; [exact Hshape|].
  split; [reflexivity|].
  split; [intros Hnd; constructor; assumption|].
  split; [reflexivity|].
  exists [DOM_getDocument (-1) true; DOM_getOuterHTML (root_nodeId w)]. reflexivity.
Qed.

Lemma snapshot_witness :
  let options := {| wsEndpoint := None; saveDom := true |} in
  let w := world formPage (lit "MouseEvent") 3 None in
  let st := set_files [lit "1600000000.html"; lit "1600000000_1.html"]
              (started (lit "example.com") options) in
  fst (saveDomIfNeeded options w st) = Returned tt /\
  files (snd (saveDomIfNeeded options w st))
  = [lit "1600000000_2.html"; lit "1600000000.html"; lit "1600000000_1.html"].
Proof.
  cbv zeta.
  destruct (snapshot_gets_a_new_file
              {| wsEndpoint := None; saveDom := true |}
              (world formPage (lit "MouseEvent") 3 None)
              (set_files [lit "1600000000.html"; lit "1600000000_1.html"]
                 (started (lit "example.com")
                    {| wsEndpoint := None; saveDom := true |})))
    as (fileName & st' & Hrun & _);
    [reflexivity | vm_compute; discriminate |].
  split; reflexivity.
Defined.

(* ================================================================== *)
(** ** What a click and a change emit *)
(* ================================================================== *)

Lemma saveDomIfNeeded_off options w st :
  saveDom options = false -> saveDomIfNeeded options w st = (Returned tt, st).
Proof. intros H. unfold saveDomIfNeeded. rewrite H. reflexivity. Qed.

Lemma resume_run st :
  resume st
  = (Returned tt,
     set_sent (sent st ++ [Debugger_setSkipAllPauses true; Debugger_resume false;
                           Debugger_setSkipAllPauses false]) st).
Proof.
  unfold resume, skip, bind, send, modify.
  destruct st; unfold set_sent; cbn. rewrite <- !app_assoc. reflexivity.
Qed.

(** A click on a control that is not a submit button, with a selector
    found, emits [await click(<selector>);] and resumes; with [saveDom] set
    the line is preceded by the comment line of a snapshot written to a
    new file, and without it nothing is written. *)
Theorem click_emits_one_line
    (fuel : nat) (options : RecorderOptions) (w : World)
    (localFrame : list PropertyDescriptor) (clicked : option jsstring)
    (isSubmit selector : JsValue) (st : Session) :
  fst (findTargetId w localFrame [lit "MouseEvent"; lit "PointerEvent"] initial)
  = Returned clicked ->
  fst (isSubmitButton w clicked initial) = Returned isSubmit ->
  truthy isSubmit = false ->
  fst (getSelector fuel w clicked initial) = Returned selector ->
  truthy selector = true ->
  (0 <= identation st)%Z ->
  let line := lit "await click(" ++ interpolate (escapeSelector selector) ++ lit ");" in
  let st' := snd (handleClickEvent fuel options w localFrame st) in
  fst (handleClickEvent fuel options w localFrame st) = Returned tt /\
  (saveDom options = false ->
   output st' = output st ++ [lineAt (identation st) line] /\
   files st' = files st) /\
  (saveDom options = true ->
   exists fileName,
     ~ In fileName (files st) /\ files st' = fileName :: files st /\
     output st'
     = output st ++ [lineAt (identation st) (lit "// saved DOM to " ++ fileName);
                     lineAt (identation st) line]) /\
  exists cmds,
    sent st' = sent st ++ cmds ++ [Debugger_setSkipAllPauses true;
                                   Debugger_resume false;
                                   Debugger_setSkipAllPauses false].
Proof.
  intros Hc Hb Hnb Hs Ht Hi line st'. subst st'.
  unfold handleClickEvent.
  rewrite (bind_returned _ _ _ _ _
             (sendsOnly_run _ _ st (sendsOnly_findTargetId _ _ _) Hc)).
  generalize (sent (snd (findTargetId w localFrame
                           [lit "MouseEvent"; lit "PointerEvent"] initial))).
  intros c1. set (s1 := set_sent (sent st ++ c1) st).
  rewrite (bind_returned _ _ _ _ _
             (sendsOnly_run _ _ s1 (sendsOnly_isSubmitButton _ _) Hb)).
  rewrite Hnb.
  generalize (sent (snd (isSubmitButton w clicked initial))).
  intros c2. set (s2 := set_sent (sent s1 ++ c2) s1).
  rewrite (bind_returned _ _ _ _ _
             (sendsOnly_run _ _ s2 (sendsOnly_getSelector _ _ _) Hs)).
  rewrite Ht.
  generalize (sent (snd (getSelector fuel w clicked initial))).
  intros c3. set (s3 := set_sent (sent s2 ++ c3) s2). fold line.
  assert (Hi3 : (0 <= identation s3)%Z) by exact Hi.
  destruct (saveDom options) eqn:Hsd.
  - destruct (saveDomIfNeeded_run options w s3 Hsd Hi3)
      as (fileName & Hfree & _ & Hrun).
    set (s4 := set_output _ _) in Hrun.
    assert (Hi4 : (0 <= identation s4)%Z) by exact Hi.
    erewrite bind_returned
      by (erewrite bind_returned by exact Hrun; apply addLine_emits; exact Hi4).
    rewrite resume_run. cbn [fst snd].
    split; [reflexivity|]. split; [discriminate|]. split.
    + intros _. exists fileName. split.
      * intros Hin. apply existsSync_In in Hin.
        change (files s3) with (files st) in Hfree. congruence.
      * split; [reflexivity|].
        cbn. rewrite <- app_assoc. reflexivity.
    + exists (c1 ++ c2 ++ c3 ++ [DOM_getDocument (-1) true;
                                 DOM_getOuterHTML (root_nodeId w);
                                 Fs_writeFile fileName (outerHTML w)]).
      cbn. rewrite <- !app_assoc. reflexivity.
  - erewrite bind_returned
      by (erewrite bind_returned
            by (apply saveDomIfNeeded_off; exact Hsd);
          apply addLine_emits; exact Hi3).
    rewrite resume_run. cbn [fst snd].
    split; [reflexivity|]. split; [|split; [discriminate|]].
    + intros _. split; reflexivity.
    + exists (c1 ++ c2 ++ c3). cbn. rewrite <- !app_assoc. reflexivity.
Qed.

Lemma click_emits_witness :
  let options := {| wsEndpoint := None; saveDom := true |} in
  let w := world loginPage (lit "MouseEvent") 4 None in
  let st := started (lit "example.com") options in
  let line := lit "await click("
                ++ quoteJSONString (lit "aria/Login[role=" ++ [34%N] ++ lit "button"
                                      ++ [34%N] ++ lit "]")
                ++ lit ");" in
  let st' := snd (handleClickEvent 3 options w (getProperties w (lit "scope")) st) in
  exists fileName,
    ~ In fileName (files st) /\ files st' = fileName :: files st /\
    output st'
    = output st ++ [lineAt (identation st) (lit "// saved DOM to " ++ fileName);
                    lineAt (identation st) line].
Proof.
  cbv zeta.
  apply (click_emits_one_line 3 {| wsEndpoint := None; saveDom := true |}
           (world loginPage (lit "MouseEvent") 4 None)
           (getProperties (world loginPage (lit "MouseEvent") 4 None) (lit "scope"))
           (Some (objectIdOf 4)) (VBool false)
           (VStr (lit "aria/Login[role=" ++ [34%N] ++ lit "button"
                    ++ [34%N] ++ lit "]"))
           (started (lit "example.com") {| wsEndpoint := None; saveDom := true |}));
    first [ reflexivity | vm_compute; discriminate ].
Defined.

(** A change always emits its [type] line: once the target, its value and the
    selector have been read, [await type(<selector>, <value>);] is emitted
    with the JSON of both, whatever the selector is, and the pause is
    resumed. Nothing is logged. *)
Theorem change_emits_type_line
    (fuel : nat) (w : World) (localFrame : list PropertyDescriptor)
    (target : jsstring) (selector : JsValue) (st : Session) :
  fst (findTargetId w localFrame [lit "Event"] initial) = Returned (Some target) ->
  fst (getSelector fuel w (Some target) initial) = Returned selector ->
  (0 <= identation st)%Z ->
  let value := ro_value (callFunctionOn w getThisValue target) in
  let st' := snd (handleChangeEvent fuel w localFrame st) in
  fst (handleChangeEvent fuel w localFrame st) = Returned tt /\
  output st'
  = output st ++
      [lineAt (identation st)
         (lit "await type(" ++ interpolate (escapeSelector selector) ++ lit ", "
            ++ interpolate (escapeSelector value) ++ lit ");")] /\
  console st' = console st /\
  exists cmds,
    sent st' = sent st ++ cmds ++ [Debugger_setSkipAllPauses true;
                                   Debugger_resume false;
                                   Debugger_setSkipAllPauses false].
Proof.
  intros Hc Hs Hi value st'. subst st'.
  assert (Hrun : exists c1 c3,
    handleChangeEvent fuel w localFrame st
    = resume
        (set_output
           (output st ++
              [lineAt (identation st)
                 (lit "await type(" ++ interpolate (escapeSelector selector) ++ lit ", "
                    ++ interpolate (escapeSelector value) ++ lit ");")])
           (set_sent
              (sent st ++ c1 ++ [Runtime_callFunctionOn getThisValue (Some target)] ++ c3)
              st))).
  { exists (sent (snd (findTargetId w localFrame [lit "Event"] initial))),
           (sent (snd (getSelector fuel w (Some target) initial))).
    unfold handleChangeEvent.
    rewrite (bind_returned _ _ _ _ _
               (sendsOnly_run _ _ st (sendsOnly_findTargetId _ _ _) Hc)).
    generalize (sent (snd (findTargetId w localFrame [lit "Event"] initial))).
    intros c1. set (s1 := set_sent (sent st ++ c1) st).
    unfold bind at 1, Runtime_callFunctionOn_ at 1, bind at 1, send at 1,
      modify at 1, ret at 1.
    cbv beta iota. fold value.
    set (s2 := set_sent (sent s1 ++ [Runtime_callFunctionOn getThisValue (Some target)]) s1).
    rewrite (bind_returned _ _ _ _ _
               (sendsOnly_run _ _ s2 (sendsOnly_getSelector _ _ _) Hs)).
    generalize (sent (snd (getSelector fuel w (Some target) initial))).
    intros c3. set (s3 := set_sent (sent s2 ++ c3) s2).
    assert (Hi3 : (0 <= identation s3)%Z) by exact Hi.
    erewrite bind_returned by (apply addLine_emits; exact Hi3).
    f_equal. subst s3 s2 s1. destruct st; unfold set_sent, set_output; cbn.
    rewrite <- !app_assoc. reflexivity. }
  destruct Hrun as (c1 & c3 & Hrun). rewrite Hrun, resume_run. cbn [fst snd].
  split; [reflexivity|]. split; [reflexivity|]. split; [reflexivity|].
  exists (c1 ++ [Runtime_callFunctionOn getThisValue (Some target)] ++ c3).
  cbn. rewrite <- !app_assoc. reflexivity.
Qed.

Lemma change_emits_witness :
  let w := world formPage (lit "Event") 3 None in
  let st := started (lit "example.com") options0 in
  let st' := snd (handleChangeEvent 3 w (getProperties w (lit "scope")) st) in
  fst (handleChangeEvent 3 w (getProperties w (lit "scope")) st) = Returned tt /\
  output st'
  = output st ++
      [lineAt 1 (lit "await type(" ++ quoteJSONString (lit "aria/Send") ++ lit ", "
                   ++ quoteJSONString [] ++ lit ");")] /\
  console st' = console st /\
  exists cmds,
    sent st' = sent st ++ cmds ++ [Debugger_setSkipAllPauses true;
                                   Debugger_resume false;
                                   Debugger_setSkipAllPauses false].
Proof.
  cbv zeta.
  apply (change_emits_type_line 3 (world formPage (lit "Event") 3 None)
           (getProperties (world formPage (lit "Event") 3 None) (lit "scope"))
           (objectIdOf 3) (VStr (lit "aria/Send"))
           (started (lit "example.com") options0));
    first [ reflexivity | vm_compute; discriminate ].
Defined.

(* ================================================================== *)
(** ** The command line *)
(* ================================================================== *)

Lemma indexOf_absent (args : list jsstring) (x : jsstring) :
  ~ In x args -> indexOf args x = None.
Proof.
  induction args as [|a args IH]; intros H; [reflexivity|]. simpl.
  destruct (JS.eqb a x) eqn:E.
  - apply eqb_eq in E. subst. exfalso. apply H. left. reflexivity.
  - rewrite IH; [reflexivity|]. intros Hin. apply H. right. exact Hin.
Qed.

Lemma indexOf_first (pre post : list jsstring) (x : jsstring) :
  ~ In x pre -> indexOf (pre ++ x :: post) x = Some (List.length pre).
Proof.
  induction pre as [|a pre IH]; intros H; simpl.
  - rewrite eqb_refl. reflexivity.
  - destruct (JS.eqb a x) eqn:E.
    + apply eqb_eq in E. subst. exfalso. apply H. left. reflexivity.
    + rewrite IH; [reflexivity|]. intros Hin. apply H. right. exact Hin.
Qed.

Lemma splice_at (pre l : list jsstring) (n : nat) :
  splice (pre ++ l) (List.length pre) n = pre ++ skipn n l.
Proof.
  unfold splice.
  rewrite firstn_app, firstn_all, Nat.sub_diag, firstn_O, app_nil_r.
  rewrite skipn_app, skipn_all2 by lia.
  replace (List.length pre + n - List.length pre)%nat with n by lia.
  reflexivity.
Qed.

Lemma not_in_app {A} (x : A) (l l' : list A) :
  ~ In x (l ++ l') -> ~ In x l /\ ~ In x l'.
Proof. intros H. split; intros Hin; apply H, in_or_app; auto. Qed.

(** The script with [--save_dom] somewhere in front of everything else. *)
Lemma cli_save_dom (pre post : list jsstring) :
  ~ In (lit "--save_dom") pre ->
  cli (pre ++ lit "--save_dom" :: post)
  = match indexOf (pre ++ post) (lit "--output") with
    | Some fileNameIndex =>
        if (fileNameIndex =? List.length (pre ++ post) - 1)%nat then FilenameRequired
        else cliRun (splice (pre ++ post) fileNameIndex 2) true
                    (nth_error (pre ++ post) (fileNameIndex + 1))
    | None => cliRun (pre ++ post) true None
    end.
Proof.
  intros H. unfold cli. rewrite (indexOf_first pre post _ H).
  rewrite splice_at. reflexivity.
Qed.

Lemma cli_no_save_dom (args : list jsstring) :
  ~ In (lit "--save_dom") args ->
  cli args
  = match indexOf args (lit "--output") with
    | Some fileNameIndex =>
        if (fileNameIndex =? List.length args - 1)%nat then FilenameRequired
        else cliRun (splice args fileNameIndex 2) false
                    (nth_error args (fileNameIndex + 1))
    | None => cliRun args false None
    end.
Proof. intros H. unfold cli. rewrite (indexOf_absent _ _ H). reflexivity. Qed.

(** With [--output file] at [pre], the rest of the script. *)
Lemma output_at (pre post : list jsstring) (file : jsstring) (saveDom_ : bool) :
  ~ In (lit "--output") pre ->
  match indexOf (pre ++ lit "--output" :: file :: post) (lit "--output") with
  | Some fileNameIndex =>
      if (fileNameIndex
          =? List.length (pre ++ lit "--output" :: file :: post) - 1)%nat
      then FilenameRequired
      else cliRun (splice (pre ++ lit "--output" :: file :: post) fileNameIndex 2)
                  saveDom_
                  (nth_error (pre ++ lit "--output" :: file :: post)
                             (fileNameIndex + 1))
  | None => cliRun (pre ++ lit "--output" :: file :: post) saveDom_ None
  end
  = cliRun (pre ++ post) saveDom_ (Some file).
Proof.
  intros H. rewrite (indexOf_first pre _ _ H).
  rewrite length_app. cbn [List.length].
  destruct (Nat.eqb_spec (List.length pre)
              (List.length pre + S (S (List.length post)) - 1)); [lia|].
  rewrite splice_at. cbn [skipn].
  rewrite nth_error_app2 by lia.
  replace (List.length pre + 1 - List.length pre)%nat with 1%nat by lia.
  reflexivity.
Qed.

(** The two flags may stand anywhere: with [--save_dom] and [--output file]
    in either order, before, between or after the other arguments, the
    recorder is called on the first of the other arguments with [saveDom]
    set and [file] as the output file; each flag alone, or none, gives the
    same call without the other's effect. *)
Theorem cli_flags_anywhere
    (pre mid post others : list jsstring) (file url : jsstring) :
  pre ++ mid ++ post = url :: others ->
  url <> [] ->
  ~ In (lit "--save_dom") (url :: others) ->
  ~ In (lit "--output") (url :: others) ->
  file <> lit "--save_dom" ->
  let records saveDom_ outputFile :=
    Records url {| wsEndpoint := None; saveDom := saveDom_ |} outputFile in
  cli (pre ++ lit "--save_dom" :: mid ++ lit "--output" :: file :: post)
  = records true (Some file)
  /\ cli (pre ++ lit "--output" :: file :: mid ++ lit "--save_dom" :: post)
     = records true (Some file)
  /\ cli (pre ++ mid ++ lit "--output" :: file :: post) = records false (Some file)
  /\ cli (pre ++ lit "--save_dom" :: mid ++ post) = records true None
  /\ cli (pre ++ mid ++ post) = records false None.
Proof.
  intros Hrest Hurl Hsave Hout Hfile records.
  rewrite <- Hrest in Hsave, Hout.
  destruct (not_in_app _ _ _ Hsave) as [Hs1 Hs23].
  destruct (not_in_app _ _ _ Hs23) as [Hs2 Hs3].
  destruct (not_in_app _ _ _ Hout) as [Ho1 Ho23].
  destruct (not_in_app _ _ _ Ho23) as [Ho2 Ho3].
  assert (Hrun : forall b f, cliRun (pre ++ mid ++ post) b f = records b f).
  { intros b f. rewrite Hrest. unfold cliRun.
    destruct url; [congruence | reflexivity]. }
  assert (Hne : lit "--save_dom" <> lit "--output") by discriminate.
  split; [|split; [|split; [|split]]].
  - rewrite cli_save_dom by exact Hs1.
    rewrite (app_assoc pre mid).
    rewrite output_at by (intros Hin; apply in_app_or in Hin; tauto).
    rewrite <- app_assoc. apply Hrun.
  - change (pre ++ lit "--output" :: file :: mid ++ lit "--save_dom" :: post)
      with (pre ++ [lit "--output"; file] ++ mid ++ lit "--save_dom" :: post).
    rewrite !app_assoc. rewrite cli_save_dom.
    2:{ intros Hin. repeat (apply in_app_or in Hin; destruct Hin as [Hin | Hin]);
          try tauto.
        destruct Hin as [Hin | [Hin | []]]; congruence. }
    rewrite <- !app_assoc. cbn [app].
    rewrite output_at by exact Ho1. apply Hrun.
  - rewrite cli_no_save_dom.
    2:{ intros Hin. repeat (apply in_app_or in Hin; destruct Hin as [Hin | Hin]);
          try tauto.
        destruct Hin as [Hin | [Hin | Hin]]; [congruence | congruence | tauto]. }
    rewrite (app_assoc pre mid).
    rewrite output_at by (intros Hin; apply in_app_or in Hin; tauto).
    rewrite <- app_assoc. apply Hrun.
  - rewrite cli_save_dom by exact Hs1.
    rewrite (indexOf_absent _ _ Hout). apply Hrun.
  - rewrite cli_no_save_dom by exact Hsave.
    rewrite (indexOf_absent _ _ Hout). apply Hrun.
Qed.

Lemma cli_flags_witness :
  cli [lit "--output"; lit "script.js"; lit "example.com"; lit "--save_dom"]
  = Records (lit "example.com") {| wsEndpoint := None; saveDom := true |}
            (Some (lit "script.js")).
Proof.
  apply (cli_flags_anywhere [] [lit "example.com"] [] []
           (lit "script.js") (lit "example.com"));
    first [ reflexivity | discriminate
          | intros [H | []]; discriminate ].
Defined.

(** [--output] needs a file name after it, and [--save_dom] does not count
    as one: with [--output] last, or followed only by [--save_dom], the
    script throws before it looks for the url. *)
Theorem cli_output_needs_a_file_name (pre : list jsstring) :
  ~ In (lit "--save_dom") pre ->
  ~ In (lit "--output") pre ->
  cli (pre ++ [lit "--output"]) = FilenameRequired
  /\ cli (pre ++ [lit "--output"; lit "--save_dom"]) = FilenameRequired
  /\ cli (pre ++ [lit "--save_dom"; lit "--output"]) = FilenameRequired.
Proof.
  intros Hs Ho.
  assert (Hlast : match indexOf (pre ++ [lit "--output"]) (lit "--output") with
                  | Some i => (i =? List.length (pre ++ [lit "--output"]) - 1)%nat = true
                  | None => False
                  end).
  { rewrite (indexOf_first pre [] _ Ho). rewrite length_app. cbn [List.length].
    apply Nat.eqb_eq. lia. }
  split; [|split].
  - rewrite cli_no_save_dom.
    + destruct (indexOf (pre ++ [lit "--output"]) (lit "--output"));
        [rewrite Hlast; reflexivity | contradiction].
    + intros Hin. apply in_app_or in Hin. destruct Hin as [Hin | [Hin | []]];
        [tauto | discriminate].
  - change (pre ++ [lit "--output"; lit "--save_dom"])
      with (pre ++ [lit "--output"] ++ lit "--save_dom" :: []).
    rewrite app_assoc, cli_save_dom.
    + rewrite app_nil_r.
      destruct (indexOf (pre ++ [lit "--output"]) (lit "--output"));
        [rewrite Hlast; reflexivity | contradiction].
    + intros Hin. apply in_app_or in Hin. destruct Hin as [Hin | [Hin | []]];
        [tauto | discriminate].
  - rewrite cli_save_dom by exact Hs.
    destruct (indexOf (pre ++ [lit "--output"]) (lit "--output"));
      [rewrite Hlast; reflexivity | contradiction].
Qed.

Lemma cli_output_witness :
  cli ([lit "example.com"] ++ [lit "--output"]) = FilenameRequired
  /\ cli ([lit "example.com"] ++ [lit "--output"; lit "--save_dom"]) = FilenameRequired
  /\ cli ([lit "example.com"] ++ [lit "--save_dom"; lit "--output"]) = FilenameRequired.
Proof.
  apply (cli_output_needs_a_file_name [lit "example.com"]);
    intros [H | []]; discriminate.
Defined.

(* ================================================================== *)
(** ** The end of a session *)
(* ================================================================== *)

Lemma run_app fuel options st evs evs' :
  run fuel options st (evs ++ evs')
  = run fuel options (run fuel options st evs) evs'.
Proof. unfold run. apply fold_left_app. Qed.


Lemma appends_none P st st' :
  appends P st st' ->
  forall c, ~ P c -> ~ In c (sent st) -> ~ In c (sent st').
Proof.
  intros (added & Hs & Ha) c Hc Hin. rewrite Hs. intros H.
  apply in_app_or in H. destruct H as [H | H]; [tauto|].
  rewrite Forall_forall in Ha. apply Hc, Ha, H.
Qed.

(** The handlers of the recording send neither of the two commands. *)
Lemma body_handle fuel options ev st :
  isTrigger ev = false -> ev <> BrowserClosed ->
  appends bodyCommand st (snd (handle fuel options ev st)).
Proof.
  intros Ht Hne.
  destruct ev; try discriminate; try congruence; simpl handle;
    [ apply ap_onDomContentLoaded | apply ap_onPaused
    | apply ap_onTimerFired | apply ap_onFrameNavigated ];
    unfold bodyCommand; intros; repeat split; intros; discriminate.
Qed.

Lemma started_commands url options :
  Forall bodyCommand (sent (started url options)).
Proof.
  unfold started, start, getBrowserInstance.
  destruct (wsEndpoint options) as [[|c s]|]; cbn;
    repeat constructor; discriminate.
Qed.

(** While it records, the recorder sends commands of the recording only. *)
Lemma run_body fuel options evs :
  forall st, recording st -> existsb isTrigger evs = false ->
    recording (run fuel options st evs)
    /\ appends bodyCommand st (run fuel options st evs).
Proof.
  induction evs as [|ev evs IH]; intros st Hrec Hex.
  - split; [exact Hrec | apply appends_refl].
  - simpl in Hex. apply orb_false_iff in Hex. destruct Hex as [Ht Hex].
    simpl.
    destruct (IH _ (step_recording_other fuel options st ev Hrec Ht) Hex)
      as [Hr Ha].
    split; [exact Hr|]. eapply appends_trans; [|exact Ha].
    destruct Hrec as (_ & He & Hp & _). unfold step. rewrite He.
    destruct (Event_BrowserClosed_dec ev) as [-> | Hne].
    + simpl handle. unfold onBrowserClosed, bind, gets. cbv beta iota.
      rewrite Hp. apply appends_refl.
    + apply body_handle; assumption.
Qed.

Lemma close_first_commands options st :
  identation st = 1%Z ->
  close options st
  = (Returned tt,
     set_sent (sent st ++ if hasEndpoint options then [] else [Browser_close])
       (set_output (output st ++ [lineAt 0 closeLine; EndOfStream])
          (set_identation 0 st))).
Proof.
  intros Hi. unfold close.
  unfold bind at 1, modify at 1. rewrite Hi.
  erewrite bind_returned by (apply addLine_emits; cbn; lia).
  unfold bind at 1, push at 1, modify at 1.
  destruct (hasEndpoint options); cbn [negb].
  - unfold ret. destruct st; unfold set_sent, set_output; cbn.
    rewrite app_nil_r, <- app_assoc. reflexivity.
  - unfold send, modify.
    destruct st; unfold set_sent, set_output; cbn.
    rewrite <- app_assoc. reflexivity.
Qed.

(** After the first [close()], an event other than the browser's having
    closed leaves the exit flags alone and sends commands of the recording
    only. *)
Lemma step_after_close fuel options st ev :
  (identation st <= 0)%Z -> exited st = false -> ev <> BrowserClosed ->
  let st' := step fuel options st ev in
  (identation st' <= 0)%Z /\ exited st' = false
  /\ exitPending st' = exitPending st /\ appends bodyCommand st st'.
Proof.
  intros Hi He Hne st'. unfold st', step. rewrite He.
  destruct (isTrigger ev) eqn:Ht.
  - destruct ev; try discriminate; simpl handle.
    + rewrite close_again by exact Hi. cbn.
      split; [lia|]. split; [exact He|]. split; [reflexivity|].
      apply (appends_refl _ st).
    + unfold onSigint. rewrite (bind_thrown _ _ _ _ _ (close_again options st Hi)).
      cbn. split; [lia|]. split; [exact He|]. split; [reflexivity|].
      apply (appends_refl _ st).
  - destruct (extendsBody_handle fuel options ev Ht Hne st)
      as (Hi' & He' & Hp' & _).
    split; [lia|]. split; [congruence|]. split; [exact Hp'|].
    apply body_handle; assumption.
Qed.


(** Without an interrupt waiting for it, nothing after the first [close()]
    reaches [process.exit()] or [browser.close()]. *)
Lemma run_closed fuel options evs :
  forall st, (identation st <= 0)%Z -> exited st = false ->
    exitPending st = false ->
    appends bodyCommand st (run fuel options st evs).
Proof.
  induction evs as [|ev evs IH]; intros st Hi He Hp; [apply appends_refl|].
  simpl. destruct (Event_BrowserClosed_dec ev) as [-> | Hne].
  - assert (Hs : step fuel options st BrowserClosed = st).
    { unfold step. rewrite He. simpl handle.
      unfold onBrowserClosed, bind, gets. cbv beta iota. rewrite Hp.
      reflexivity. }
    rewrite Hs. apply IH; assumption.
  - destruct (step_after_close fuel options st ev Hi He Hne) as (Hi1 & He1 & Hp1 & Ha1).
    eapply appends_trans; [exact Ha1|]. apply IH; congruence.
Qed.

Lemma bodyCommand_not_close : ~ bodyCommand Browser_close.
Proof. intros [H _]. congruence. Qed.

Lemma bodyCommand_not_exit : ~ bodyCommand Process_exit.
Proof. intros [_ H]. congruence. Qed.

Lemma body_none (cmds : list Command) :
  Forall bodyCommand cmds ->
  ~ In Browser_close cmds /\ ~ In Process_exit cmds.
Proof.
  intros H. rewrite Forall_forall in H.
  split; intros Hin; apply H in Hin.
  - apply bodyCommand_not_close, Hin.
  - apply bodyCommand_not_exit, Hin.
Qed.




(** Once the page has closed, [process.exit()] is out of reach: a later
    interrupt runs [close()] again, which throws before the handler gets to
    [process.exit()], so whatever follows the close of the page, the
    recorder never calls [process.exit()]; and a recorder that launched its
    browser has closed it exactly once. *)
Theorem no_exit_after_page_close
    (fuel : nat) (options : RecorderOptions) (url : jsstring)
    (evs later : list Event) :
  existsb isTrigger evs = false ->
  let cmds :=
    sent (run fuel options (started url options) (evs ++ PageClose :: later)) in
  ~ In Process_exit cmds
  /\ (hasEndpoint options = false ->
      exists before after,
        cmds = before ++ Browser_close :: after
        /\ ~ In Browser_close before /\ ~ In Browser_close after).
Proof.
  intros Hex cmds. unfold cmds.
  destruct (run_body fuel options evs _ (started_recording url options) Hex)
    as [Hrec (added & Hadd & Padd)].
  pose proof (started_commands url options) as Hst.
  assert (Hbody : Forall bodyCommand
                    (sent (run fuel options (started url options) evs))).
  { rewrite Hadd. apply Forall_app. auto. }
  rewrite run_app.
  set (st := run fuel options (started url options) evs) in *.
  cbn [run fold_left].
  assert (Hstep : step fuel options st PageClose
                  = set_sent (sent st ++ if hasEndpoint options then []
                                         else [Browser_close])
                      (set_output (output st ++ [lineAt 0 closeLine; EndOfStream])
                         (set_identation 0 st))).
  { destruct Hrec as (Hi & He & _). unfold step. rewrite He. simpl handle.
    rewrite (close_first_commands options st Hi). reflexivity. }
  destruct Hrec as (Hi & He & Hp & _).
  set (st1 := step fuel options st PageClose) in *.
  assert (H1 : identation st1 = 0%Z /\ exited st1 = false
               /\ exitPending st1 = false
               /\ sent st1 = sent st ++ if hasEndpoint options then []
                                        else [Browser_close]).
  { rewrite Hstep. cbn. repeat split; assumption. }
  destruct H1 as (Hi1 & He1 & Hp1 & Hs1).
  destruct (run_closed fuel options later st1 (Z.eq_le_incl _ _ Hi1) He1 Hp1)
    as (added1 & Hadd1 & Padd1).
  fold (run fuel options st1 later). rewrite Hadd1, Hs1.
  split.
  - intros Hin.
    repeat (apply in_app_or in Hin; destruct Hin as [Hin | Hin]).
    + apply (proj2 (body_none _ Hbody)), Hin.
    + destruct (hasEndpoint options); [destruct Hin|].
      destruct Hin as [Hin | []]; discriminate.
    + apply (proj2 (body_none _ Padd1)), Hin.
  - intros Hown. rewrite Hown. exists (sent st), added1.
    rewrite <- app_assoc. cbn [app].
    split; [reflexivity|].
    split; [apply body_none, Hbody | apply body_none, Padd1].
Qed.

Lemma no_exit_witness :
  let cmds :=
    sent (run 0 options0 (started (lit "example.com") options0)
            ([DomContentLoaded] ++ PageClose :: [Sigint; BrowserClosed])) in
  ~ In Process_exit cmds
  /\ (hasEndpoint options0 = false ->
      exists before after,
        cmds = before ++ Browser_close :: after
        /\ ~ In Browser_close before /\ ~ In Browser_close after).
Proof.
  apply (no_exit_after_page_close 0 options0 (lit "example.com")
           [DomContentLoaded] [Sigint; BrowserClosed]).
  reflexivity.
Defined.

(** A recorder started from the command line owns its browser: the script
    passes no [wsEndpoint], so the recorder launches a browser before
    anything else and, when the page closes or the user interrupts, closes
    that browser. *)
Theorem cli_recorder_owns_its_browser
    (args : list jsstring) (url : jsstring) (options : RecorderOptions)
    (outputFile : option jsstring) (fuel : nat) (evs : list Event) :
  cli args = Records url options outputFile ->
  existsb isTrigger evs = true ->
  In url args /\ url <> []
  /\ exists rest,
       sent (run fuel options (started url options) evs)
       = Puppeteer_launch :: Page_goto (normalizeUrl url) :: rest
       /\ In Browser_close rest.
Proof.
  intros Hcli Hex.
  assert (Hopt : wsEndpoint options = None /\ In url args /\ url <> []).
  { unfold cli in Hcli.
    assert (Hrun : forall rest b f,
              cliRun rest b f = Records url options outputFile ->
              wsEndpoint options = None /\ In url rest /\ url <> []).
    { intros rest b f H. unfold cliRun in H.
      destruct rest as [|u rest']; [discriminate|].
      destruct u as [|c u']; [discriminate|].
      inversion H; subst. repeat split; [left; reflexivity | discriminate]. }
    assert (Hsplice : forall l i n x, In x (splice l i n) -> In x l).
    { intros l i n x Hin. unfold splice in Hin.
      apply in_app_or in Hin. destruct Hin as [Hin | Hin].
      - rewrite <- (firstn_skipn i l). apply in_or_app. left. exact Hin.
      - rewrite <- (firstn_skipn (i + n) l). apply in_or_app. right. exact Hin. }
    destruct (indexOf args (lit "--save_dom")) as [i|];
      match type of Hcli with
      | context [indexOf ?l (lit "--output")] =>
          destruct (indexOf l (lit "--output")) as [j|]
      end;
      try match type of Hcli with
          | context [if ?b then _ else _] => destruct b; [discriminate|]
          end;
      apply Hrun in Hcli; destruct Hcli as (Hw & Hin & Hne);
      repeat split; eauto. }
  destruct Hopt as (Hw & Hin & Hne).
  split; [exact Hin|]. split; [exact Hne|].
  assert (Hown : hasEndpoint options = false).
  { unfold hasEndpoint. rewrite Hw. reflexivity. }
  assert (Hstart : sent (started url options)
                   = [Puppeteer_launch; Page_goto (normalizeUrl url)]).
  { unfold started, start, getBrowserInstance. rewrite Hw. reflexivity. }
  assert (Hclose : forall evs st, recording st ->
            existsb isTrigger evs = true ->
            exists added, sent (run fuel options st evs) = sent st ++ added
                          /\ In Browser_close added).
  { clear Hex evs. induction evs as [|ev evs IH]; intros st Hrec Hex;
      [discriminate|].
    simpl in Hex. simpl. destruct (isTrigger ev) eqn:Ht.
    - assert (Hs : exists more,
                sent (step fuel options st ev)
                = sent st ++ Browser_close :: more).
      { destruct Hrec as (Hi & He & Hp & _). unfold step. rewrite He.
        pose proof (close_first_commands options st Hi) as Hc.
        rewrite Hown in Hc.
        destruct ev; try discriminate; simpl handle.
        - rewrite Hc. exists []. reflexivity.
        - unfold onSigint. rewrite (bind_returned _ _ _ _ _ Hc), Hown.
          exists []. reflexivity. }
      destruct Hs as [more Hs].
      destruct (ap_run options (fun _ => True)) with
        (fuel := fuel) (evs := evs) (st := step fuel options st ev)
        as (added & Hadd & _); try (intros; repeat split; intros; exact I).
      exists ((Browser_close :: more) ++ added).
      rewrite Hadd, Hs, <- app_assoc. split; [reflexivity|].
      left. reflexivity.
    - destruct (IH _ (step_recording_other fuel options st ev Hrec Ht) Hex)
        as (added & Hadd & Hin').
      assert (Hs : exists more, sent (step fuel options st ev) = sent st ++ more).
      { destruct (ap_handle options (fun _ => True)) with
          (fuel := fuel) (ev := ev) (st := st) as (more & Hm & _);
          try (intros; repeat split; intros; exact I).
        destruct Hrec as (_ & He & _). unfold step. rewrite He.
        exists more. exact Hm. }
      destruct Hs as [more Hs].
      exists (more ++ added). rewrite Hadd, Hs, <- app_assoc.
      split; [reflexivity | apply in_or_app; right; exact Hin']. }
  destruct (Hclose evs _ (started_recording url options) Hex)
    as (added & Hadd & Hin').
  exists added. rewrite Hadd, Hstart. split; [reflexivity | exact Hin'].
Qed.

Lemma cli_recorder_witness :
  In (lit "example.com") [lit "example.com"; lit "--save_dom"]
  /\ lit "example.com" <> []
  /\ exists rest,
       sent (run 0 {| wsEndpoint := None; saveDom := true |}
               (started (lit "example.com")
                  {| wsEndpoint := None; saveDom := true |})
               [DomContentLoaded; PageClose])
       = Puppeteer_launch :: Page_goto (normalizeUrl (lit "example.com")) :: rest
       /\ In Browser_close rest.
Proof.
  apply (cli_recorder_owns_its_browser
           [lit "example.com"; lit "--save_dom"] (lit "example.com")
           {| wsEndpoint := None; saveDom := true |} None 0
           [DomContentLoaded; PageClose]); reflexivity.
Defined.

(* ================================================================== *)
(** ** What a submit emits *)
(* ================================================================== *)

(** A submit with a selector found emits [await submit(<selector>);] at the
    current depth and resumes. Unlike a click it takes no snapshot, also
    with [saveDom] set: no file is written and the page is not asked for
    its outer HTML. *)
Theorem submit_emits_one_line_without_snapshot
    (fuel : nat) (w : World) (localFrame : list PropertyDescriptor)
    (submitted : option jsstring) (selector : JsValue) (st : Session) :
  fst (findTargetId w localFrame [lit "SubmitEvent"] initial)
  = Returned submitted ->
  fst (getSelector fuel w submitted initial) = Returned selector ->
  truthy selector = true ->
  (0 <= identation st)%Z ->
  let line := lit "await submit(" ++ interpolate (escapeSelector selector) ++ lit ");" in
  let st' := snd (handleSubmitEvent fuel w localFrame st) in
  fst (handleSubmitEvent fuel w localFrame st) = Returned tt
  /\ output st' = output st ++ [lineAt (identation st) line]
  /\ files st' = files st
  /\ exists cmds,
       sent st' = sent st ++ cmds ++ [Debugger_setSkipAllPauses true;
                                      Debugger_resume false;
                                      Debugger_setSkipAllPauses false]
       /\ Forall (fun c => (forall f d, c <> Fs_writeFile f d)
                           /\ (forall n, c <> DOM_getOuterHTML n)) cmds.
Proof.
  intros Hc Hs Ht Hi line st'. subst st'.
  set (P := fun c : Command => (forall f d, c <> Fs_writeFile f d)
                               /\ (forall n, c <> DOM_getOuterHTML n)).
  assert (H1 : Forall P (sent (snd (findTargetId w localFrame
                                      [lit "SubmitEvent"] initial)))).
  { destruct (ap_findTargetId P) with
      (w := w) (localFrame := localFrame) (names := [lit "SubmitEvent"])
      (st := initial) as (added & Hadd & Pa);
      [intros; split; intros; discriminate|].
    rewrite Hadd. exact Pa. }
  assert (H3 : Forall P (sent (snd (getSelector fuel w submitted initial)))).
  { destruct (ap_getSelector P) with
      (fuel := fuel) (w := w) (o := submitted) (st := initial)
      as (added & Hadd & Pa);
      try (intros; split; intros; discriminate).
    rewrite Hadd. exact Pa. }
  unfold handleSubmitEvent.
  rewrite (bind_returned _ _ _ _ _
             (sendsOnly_run _ _ st (sendsOnly_findTargetId _ _ _) Hc)).
  revert H1.
  generalize (sent (snd (findTargetId w localFrame [lit "SubmitEvent"] initial))).
  intros c1 H1. set (s1 := set_sent (sent st ++ c1) st).
  rewrite (bind_returned _ _ _ _ _
             (sendsOnly_run _ _ s1 (sendsOnly_getSelector _ _ _) Hs)).
  rewrite Ht. revert H3.
  generalize (sent (snd (getSelector fuel w submitted initial))).
  intros c3 H3. set (s3 := set_sent (sent s1 ++ c3) s1). fold line.
  assert (Hi3 : (0 <= identation s3)%Z) by exact Hi.
  erewrite bind_returned by (apply addLine_emits; exact Hi3).
  rewrite resume_run. cbn [fst snd].
  split; [reflexivity|]. split; [reflexivity|]. split; [reflexivity|].
  exists (c1 ++ c3). split.
  - cbn. rewrite <- !app_assoc. reflexivity.
  - apply Forall_app. split; assumption.
Qed.

Lemma submit_emits_witness :
  let options := {| wsEndpoint := None; saveDom := true |} in
  let w := world formPage (lit "SubmitEvent") 1 None in
  let st := started (lit "example.com") options in
  let st' := snd (handleSubmitEvent 3 w (getProperties w (lit "scope")) st) in
  output st'
  = output st ++ [lineAt (identation st)
                    (lit "await submit(" ++ quoteJSONString (lit "#e1") ++ lit ");")]
  /\ files st' = files st.
Proof.
  cbv zeta.
  destruct (submit_emits_one_line_without_snapshot 3
              (world formPage (lit "SubmitEvent") 1 None)
              (getProperties (world formPage (lit "SubmitEvent") 1 None)
                 (lit "scope"))
              (Some (objectIdOf 1)) (VStr (lit "#e1"))
              (started (lit "example.com")
                 {| wsEndpoint := None; saveDom := true |}))
    as (_ & Hout & Hfiles & _);
    first [ reflexivity | vm_compute; discriminate | idtac ].
  split; [exact Hout | exact Hfiles].
Defined.
